(** * Decision tree and random forest: a shallow embedding

    The development follows [code/DecisionTreeClassifier.py] and
    [code/RandomForestClassifier.py].  Python exceptions are results of an
    error monad, numpy arrays are lists, float64 values are rationals
    extended with the infinities and NaN (arithmetic on finite values is
    exact: rounding is not modelled), and the mutable attributes of the two
    classes are fields of records that the methods pass along. *)

From Stdlib Require Import List ZArith QArith Lia Bool Permutation PeanoNat.
Import ListNotations.

Local Open Scope Z_scope.

(** ** Exceptions *)

Inductive exn : Type :=
| TypeError
| ValueError
| IndexError
| ZeroDivisionError
| AttributeError
| RecursionError.

Inductive result (A : Type) : Type :=
| Ok (a : A)
| Raise (e : exn).

Arguments Ok {A} a.
Arguments Raise {A} e.

Definition bind {A B : Type} (c : result A) (k : A -> result B) : result B :=
  match c with
  | Ok a => k a
  | Raise e => Raise e
  end.

Notation "x <- c ;; k" := (bind c (fun x => k))
  (at level 61, c at next level, right associativity).
Notation "' pat <- c ;; k" := (bind c (fun x => match x with pat => k end))
  (at level 61, pat pattern, c at next level, right associativity).

Fixpoint mapM {A B : Type} (f : A -> result B) (l : list A) : result (list B) :=
  match l with
  | [] => Ok []
  | a :: l' => b <- f a ;; bs <- mapM f l' ;; Ok (b :: bs)
  end.

(** ** float64 *)

Inductive float : Type :=
| NaN
| Inf (negative : bool)
| Fl (q : Q).

Definition Qlt_bool (x y : Q) : bool :=
  (Qnum x * QDen y <? Qnum y * QDen x)%Z.

Definition Qis_zero (x : Q) : bool := (Qnum x =? 0)%Z.

Definition Qis_neg (x : Q) : bool := (Qnum x <? 0)%Z.

(** [a > b] on floats: false as soon as one side is NaN. *)
Definition fgt (a b : float) : bool :=
  match a, b with
  | NaN, _ | _, NaN => false
  | Inf true, _ => false
  | Inf false, Inf false => false
  | Inf false, _ => true
  | Fl _, Inf neg => neg
  | Fl x, Fl y => Qlt_bool y x
  end.

Definition flt (a b : float) : bool := fgt b a.

Definition fneg (a : float) : float :=
  match a with
  | NaN => NaN
  | Inf neg => Inf (negb neg)
  | Fl x => Fl (- x)
  end.

Definition fadd (a b : float) : float :=
  match a, b with
  | NaN, _ | _, NaN => NaN
  | Inf n1, Inf n2 => if Bool.eqb n1 n2 then Inf n1 else NaN
  | Inf n1, Fl _ => Inf n1
  | Fl _, Inf n2 => Inf n2
  | Fl x, Fl y => Fl (x + y)
  end.

Definition fsub (a b : float) : float := fadd a (fneg b).

Definition fmul (a b : float) : float :=
  match a, b with
  | NaN, _ | _, NaN => NaN
  | Inf n1, Inf n2 => Inf (xorb n1 n2)
  | Inf n1, Fl y => if Qis_zero y then NaN else Inf (xorb n1 (Qis_neg y))
  | Fl x, Inf n2 => if Qis_zero x then NaN else Inf (xorb (Qis_neg x) n2)
  | Fl x, Fl y => Fl (x * y)
  end.

(** A float divided by a positive count. *)
Definition fdiv_count (a : float) (n : nat) : float :=
  match a with
  | Fl x => Fl (x / inject_Z (Z.of_nat n))
  | other => other
  end.

(** Python's [a / b] on two [int]s. *)
Definition py_truediv (a b : nat) : result float :=
  match b with
  | O => Raise ZeroDivisionError
  | S _ => Ok (Fl (inject_Z (Z.of_nat a) / inject_Z (Z.of_nat b)))
  end.

(** ** numpy *)

(** A one-dimensional array: integer or floating dtype. *)
Inductive ndarray : Type :=
| IntArray (l : list Z)
| FloatArray (l : list Q).

Definition len (y : ndarray) : nat :=
  match y with
  | IntArray l => length l
  | FloatArray l => length l
  end.

Definition as_floats (y : ndarray) : list float :=
  match y with
  | IntArray l => map (fun z => Fl (inject_Z z)) l
  | FloatArray l => map Fl l
  end.

(** [a[idxs]] with an array of indices. *)
Definition take {A : Type} (l : list A) (idxs : list nat) : result (list A) :=
  mapM (fun i => match nth_error l i with
                 | Some a => Ok a
                 | None => Raise IndexError
                 end) idxs.

Definition np_take (y : ndarray) (idxs : list nat) : result ndarray :=
  match y with
  | IntArray l => l' <- take l idxs ;; Ok (IntArray l')
  | FloatArray l => l' <- take l idxs ;; Ok (FloatArray l')
  end.

(** [np.unique]: the sorted distinct values, with their counts. *)
Fixpoint insert_count {A : Type} (cmp : A -> A -> comparison) (a : A)
    (l : list (A * nat)) : list (A * nat) :=
  match l with
  | [] => [(a, 1%nat)]
  | (b, c) :: l' =>
      match cmp a b with
      | Lt => (a, 1%nat) :: l
      | Eq => (b, S c) :: l'
      | Gt => (b, c) :: insert_count cmp a l'
      end
  end.

Definition unique_counts {A : Type} (cmp : A -> A -> comparison) (l : list A)
  : list (A * nat) :=
  fold_right (insert_count cmp) [] l.

Definition np_unique {A : Type} (cmp : A -> A -> comparison) (l : list A) : list A :=
  map fst (unique_counts cmp l).

Definition np_unique_counts (y : ndarray) : list nat :=
  match y with
  | IntArray l => map snd (unique_counts Z.compare l)
  | FloatArray l => map snd (unique_counts Qcompare l)
  end.

Definition np_sum (l : list float) : float := fold_left fadd l (Fl 0).

(** [np.mean]: NaN (with a warning) on an empty array. *)
Definition np_mean (l : list float) : float :=
  match l with
  | [] => NaN
  | _ => fdiv_count (np_sum l) (length l)
  end.

Definition np_full (n : nat) (v : float) : list float := repeat v n.

Fixpoint argwhere_from (i : nat) (mask : list bool) : list nat :=
  match mask with
  | [] => []
  | b :: mask' =>
      if b then i :: argwhere_from (S i) mask' else argwhere_from (S i) mask'
  end.

(** [np.argwhere(mask).flatten()]: the positions that hold [True]. *)
Definition np_argwhere (mask : list bool) : list nat := argwhere_from 0 mask.

(** First position of the largest entry; [ValueError] on an empty array. *)
Fixpoint argmax_from (i best_i best : nat) (l : list nat) : nat :=
  match l with
  | [] => best_i
  | c :: l' =>
      if (best <? c)%nat then argmax_from (S i) i c l'
      else argmax_from (S i) best_i best l'
  end.

Definition np_argmax (l : list nat) : result nat :=
  match l with
  | [] => Raise ValueError
  | c :: l' => Ok (argmax_from 1 0 c l')
  end.

(** [np.bincount]: occurrences of every value from 0 to the maximum. *)
Definition np_bincount (y : ndarray) : result (list nat) :=
  match y with
  | FloatArray _ => Raise TypeError
  | IntArray l =>
      if existsb (fun z => z <? 0) l then Raise ValueError
      else
        let top := fold_right Z.max (-1) l in
        Ok (map (fun v => count_occ Z.eq_dec l (Z.of_nat v))
                (seq 0 (Z.to_nat (top + 1))))
  end.

(** [np.max] of an integer array. *)
Definition np_max (l : list Z) : result Z :=
  match l with
  | [] => Raise ValueError
  | z :: l' => Ok (fold_left Z.max l' z)
  end.

Definition np_zeros (n m : nat) : list (list nat) := repeat (repeat 0%nat m) n.

(** [a[mask]] with a boolean array of the same length. *)
Fixpoint np_compress {A : Type} (mask : list bool) (l : list A) : result (list A) :=
  match mask, l with
  | [], [] => Ok []
  | b :: mask', a :: l' =>
      rest <- np_compress mask' l' ;;
      Ok (if b then a :: rest else rest)
  | _, _ => Raise IndexError
  end.

(** [np.setdiff1d]: the sorted distinct values of [a] that are not in [b]. *)
Definition np_setdiff1d (a b : list nat) : list nat :=
  filter (fun i => negb (existsb (Nat.eqb i) b)) (np_unique Nat.compare a).

(** Normalisation of a (possibly negative) index against an axis length. *)
Definition np_index (n : nat) (i : Z) : result nat :=
  if (0 <=? i) && (i <? Z.of_nat n) then Ok (Z.to_nat i)
  else if (- Z.of_nat n <=? i) && (i <? 0) then Ok (Z.to_nat (i + Z.of_nat n))
  else Raise IndexError.

Fixpoint update {A : Type} (f : A -> A) (i : nat) (l : list A) : list A :=
  match l, i with
  | [], _ => []
  | a :: l', O => f a :: l'
  | a :: l', S i' => a :: update f i' l'
  end.

(** [scipy.stats.mode] of one column: the smallest of the most frequent
    values. *)
Definition mode (col : list Z) : Z :=
  let vc := unique_counts Z.compare col in
  match np_argmax (map snd vc) with
  | Ok i => nth i (map fst vc) 0
  | Raise _ => 0
  end.

(** [scipy.stats.mode(a)[0].flatten()] for a two-dimensional [a]: one mode
    per column.  With no row at all the result is empty. *)
Definition stats_mode (a : list (list Z)) : list Z :=
  match a with
  | [] => []
  | r :: _ => map (fun j => mode (map (fun row => nth j row 0) a)) (seq 0 (length r))
  end.

(** A two-dimensional float array; every row holds [n_columns] entries. *)
Record matrix : Type := {
  rows : list (list Q);
  n_columns : nat
}.

Definition shape (X : matrix) : nat * nat := (length (rows X), n_columns X).

(** [X[:, idx]] *)
Definition column (X : matrix) (idx : nat) : result (list Q) :=
  if (idx <? n_columns X)%nat then Ok (map (fun r => nth idx r 0%Q) (rows X))
  else Raise IndexError.

(** [X[idxs, :]] *)
Definition take_rows (X : matrix) (idxs : list nat) : result matrix :=
  rs <- take (rows X) idxs ;;
  Ok {| rows := rs; n_columns := n_columns X |}.

(** What the classes draw from the numerical libraries: a seeded
    [np.random.RandomState] with its [choice(a, size, replace)], and
    [np.log2] on positive floats. *)
Class Numpy : Type := {
  rng : Type;
  RandomState : Z -> rng;
  choice : rng -> nat -> nat -> bool -> result (list nat * rng);
  log2 : Q -> Q
}.

(** ** Node *)

(** A leaf value: [None], an integer label or a float. *)
Inductive value : Type :=
| VNone
| VInt (z : Z)
| VFloat (f : float).

(** Modelled from the spec: the [Node] class (module [Node]) is not among
    the sources.  A node is either a decision node, which holds a feature
    index, a threshold and both children, or a leaf, which holds a value;
    [Node(value=v)] builds a leaf and [Node(feature, threshold, left, right)]
    a decision node. *)
Inductive Node : Type :=
| Leaf (v : value)
| Decision (feature : nat) (threshold : Q) (left right : Node).

(** Modelled from the spec: a node is a leaf when its value is present. *)
Definition is_leaf_node (node : Node) : bool :=
  match node with
  | Leaf VNone => false
  | Leaf _ => true
  | Decision _ _ _ _ => false
  end.

(** The arrays of predictions that the forest handles hold integer labels. *)
Definition int_array (l : list value) : result (list Z) :=
  mapM (fun v => match v with
                 | VInt z => Ok z
                 | _ => Raise TypeError
                 end) l.

(** ** DecisionTreeClassifier *)

Module DecisionTree.
Section Methods.
Context `{Numpy}.

(** The attributes set by [__init__]; [random] is the tree's own generator
    and [root] is [None] until [fit]. *)
Record DecisionTreeClassifier : Type := {
  max_depth : option Z;
  min_samples_split : Z;
  max_features : option nat;
  min_impurity_decrease : float;
  random_state : Z;
  random : rng;
  root : option Node;
  is_regression : bool
}.

Definition __init__ (max_depth : option Z) (min_samples_split : Z)
    (max_features : option nat) (min_impurity_decrease : float)
    (random_state : Z) (is_regression : bool) : DecisionTreeClassifier :=
  {| max_depth := max_depth;
     min_samples_split := min_samples_split;
     max_features := max_features;
     min_impurity_decrease := min_impurity_decrease;
     random_state := random_state;
     random := RandomState random_state;
     root := None;
     is_regression := is_regression |}.

Definition set_random (self : DecisionTreeClassifier) (r : rng)
  : DecisionTreeClassifier :=
  {| max_depth := max_depth self;
     min_samples_split := min_samples_split self;
     max_features := max_features self;
     min_impurity_decrease := min_impurity_decrease self;
     random_state := random_state self;
     random := r;
     root := root self;
     is_regression := is_regression self |}.

Definition set_root (self : DecisionTreeClassifier) (node : option Node)
  : DecisionTreeClassifier :=
  {| max_depth := max_depth self;
     min_samples_split := min_samples_split self;
     max_features := max_features self;
     min_impurity_decrease := min_impurity_decrease self;
     random_state := random_state self;
     random := random self;
     root := node;
     is_regression := is_regression self |}.

Definition _split (feature : list Q) (threshold : Q) : list nat * list nat :=
  let left_idxs := np_argwhere (map (fun v => Qle_bool v threshold) feature) in
  let right_idxs := np_argwhere (map (fun v => Qlt_bool threshold v) feature) in
  (left_idxs, right_idxs).

Definition _most_common_label (y : ndarray) : result value :=
  if (len y =? 0)%nat then Ok VNone
  else
    counts <- np_bincount y ;;
    common_label <- np_argmax counts ;;
    Ok (VInt (Z.of_nat common_label)).

Definition _get_leaf_value (self : DecisionTreeClassifier) (y : ndarray)
  : result value :=
  if is_regression self then Ok (VFloat (np_mean (as_floats y)))
  else _most_common_label y.

Definition _mse (y_true y_pred : list float) : float :=
  np_mean (map (fun d => fmul d d)
               (map (fun tp => fsub (fst tp) (snd tp)) (combine y_true y_pred))).

(** [np.log2] on a float: minus infinity at zero, NaN below. *)
Definition np_log2 (x : float) : float :=
  match x with
  | NaN => NaN
  | Inf true => NaN
  | Inf false => Inf false
  | Fl q => if Qis_zero q then Inf true
            else if Qis_neg q then NaN
            else Fl (log2 q)
  end.

Definition _entropy (y : ndarray) : float :=
  let counts := np_unique_counts y in
  let p := map (fun c => Fl (inject_Z (Z.of_nat c) / inject_Z (Z.of_nat (len y))))
               counts in
  fneg (np_sum (map (fun pi => fmul pi (np_log2 pi)) p)).

Definition _information_gain (self : DecisionTreeClassifier) (y : ndarray)
    (feature : list Q) (threshold : Q) : result float :=
  let parent_loss :=
    if is_regression self
    then _mse (as_floats y) (np_full (len y) (np_mean (as_floats y)))
    else _entropy y in
  let '(left_idxs, right_idxs) := _split feature threshold in
  if (length left_idxs =? 0)%nat || (length right_idxs =? 0)%nat then Ok (Fl 0)
  else
    let n := len y in
    let n_l := length left_idxs in
    let n_r := length right_idxs in
    y_l <- np_take y left_idxs ;;
    y_r <- np_take y right_idxs ;;
    let e_l :=
      if is_regression self
      then _mse (as_floats y_l) (np_full (len y_l) (np_mean (as_floats y_l)))
      else _entropy y_l in
    let e_r :=
      if is_regression self
      then _mse (as_floats y_r) (np_full (len y_r) (np_mean (as_floats y_r)))
      else _entropy y_r in
    w_l <- py_truediv n_l n ;;
    w_r <- py_truediv n_r n ;;
    let child_loss := fadd (fmul w_l e_l) (fmul w_r e_r) in
    let ig := fsub parent_loss child_loss in
    Ok ig.

(** The running best of the split search:
    [(split_idx, split_thresh, best_gain)]. *)
Definition criteria : Type := option nat * option Q * float.

(** The inner loop of [_best_criteria], over the thresholds of one feature. *)
Fixpoint search_thresholds (self : DecisionTreeClassifier) (y : ndarray)
    (idx : nat) (feature : list Q) (thresholds : list Q) (best : criteria)
  : result criteria :=
  match thresholds with
  | [] => Ok best
  | threshold :: rest =>
      gain <- _information_gain self y feature threshold ;;
      let '(_, _, best_gain) := best in
      let best' :=
        if fgt gain best_gain then (Some idx, Some threshold, gain) else best in
      search_thresholds self y idx feature rest best'
  end.

(** The outer loop of [_best_criteria], over the candidate features. *)
Fixpoint search_features (self : DecisionTreeClassifier) (X : matrix)
    (y : ndarray) (features_idxs : list nat) (best : criteria)
  : result criteria :=
  match features_idxs with
  | [] => Ok best
  | idx :: rest =>
      feature <- column X idx ;;
      let thresholds := np_unique Qcompare feature in
      best' <- search_thresholds self y idx feature thresholds best ;;
      search_features self X y rest best'
  end.

Definition _best_criteria (self : DecisionTreeClassifier) (X : matrix)
    (y : ndarray) (features_idxs : list nat) : result criteria :=
  search_features self X y features_idxs (None, None, Inf true).

(** [depth >= self.max_depth]: an [int] cannot be compared with [None]. *)
Definition depth_ge (depth : Z) (max_depth : option Z) : result bool :=
  match max_depth with
  | None => Raise TypeError
  | Some d => Ok (d <=? depth)
  end.

(** [_grow_tree]; [fuel] is the interpreter's recursion limit.  The tree's
    generator is advanced by the feature draws, so the updated object is
    returned next to the node. *)
Fixpoint _grow_tree (fuel : nat) (self : DecisionTreeClassifier) (X : matrix)
    (y : ndarray) (depth : Z) : result (Node * DecisionTreeClassifier) :=
  match fuel with
  | O => Raise RecursionError
  | S fuel' =>
      let '(n_samples, n_features) := shape X in
      let n_labels := length (np_unique_counts y) in
      too_deep <- depth_ge depth (max_depth self) ;;
      if too_deep || (n_labels =? 1)%nat
         || (Z.of_nat n_samples <? min_samples_split self)
      then
        leaf_value <- _get_leaf_value self y ;;
        Ok (Leaf leaf_value, self)
      else
        '(features_idxs, self) <-
          match max_features self with
          | Some k =>
              '(drawn, r) <- choice (random self) n_features k false ;;
              Ok (drawn, set_random self r)
          | None => Ok (seq 0 n_features, self)
          end ;;
        '(best_feat, best_thresh, best_gain) <-
          _best_criteria self X y features_idxs ;;
        if flt best_gain (min_impurity_decrease self) then
          leaf_value <- _get_leaf_value self y ;;
          Ok (Leaf leaf_value, self)
        else
          match best_feat, best_thresh with
          | Some best_feat, Some best_thresh =>
              feature <- column X best_feat ;;
              let '(left_idxs, right_idxs) := _split feature best_thresh in
              if (length left_idxs =? 0)%nat || (length right_idxs =? 0)%nat
              then
                leaf_value <- _get_leaf_value self y ;;
                Ok (Leaf leaf_value, self)
              else
                X_l <- take_rows X left_idxs ;;
                y_l <- np_take y left_idxs ;;
                '(left_child, self) <- _grow_tree fuel' self X_l y_l (depth + 1) ;;
                X_r <- take_rows X right_idxs ;;
                y_r <- np_take y right_idxs ;;
                '(right_child, self) <- _grow_tree fuel' self X_r y_r (depth + 1) ;;
                Ok (Decision best_feat best_thresh left_child right_child, self)
          | _, _ => Raise TypeError
          end
  end.

Definition fit (fuel : nat) (self : DecisionTreeClassifier) (X : matrix)
    (y : ndarray) : result DecisionTreeClassifier :=
  '(node, self) <- _grow_tree fuel self X y 0 ;;
  Ok (set_root self (Some node)).

Fixpoint _traverse_tree (x : list Q) (node : Node) : result value :=
  match node with
  | Leaf v => if is_leaf_node node then Ok v else Raise TypeError
  | Decision feature threshold left_child right_child =>
      match nth_error x feature with
      | None => Raise IndexError
      | Some xf =>
          if Qle_bool xf threshold then _traverse_tree x left_child
          else _traverse_tree x right_child
      end
  end.

Definition predict (self : DecisionTreeClassifier) (X : matrix)
  : result (list value) :=
  match root self with
  | None => Raise AttributeError
  | Some node => mapM (fun x => _traverse_tree x node) (rows X)
  end.

End Methods.
End DecisionTree.

(** ** RandomForestClassifier *)

Module RandomForest.
Section Methods.
Context `{Numpy}.

(** The attributes set by [__init__] ([debug], [n_jobs] and [verbose] only
    steer logging and scheduling), and [oob_votes], which [fit] assigns
    before anything reads it. *)
Record RandomForestClassifier : Type := {
  n_estimators : nat;
  max_depth : option Z;
  min_samples_split : Z;
  max_features : option nat;
  min_impurity_decrease : float;
  oob_score_ : option float;
  random_state : Z;
  random : rng;
  trees : list DecisionTree.DecisionTreeClassifier;
  oob_votes : list (list nat)
}.

Definition __init__ (n_estimators : nat) (max_depth : option Z)
    (min_samples_split : Z) (max_features : option nat)
    (min_impurity_decrease : float) (random_state : Z)
  : RandomForestClassifier :=
  {| n_estimators := n_estimators;
     max_depth := max_depth;
     min_samples_split := min_samples_split;
     max_features := max_features;
     min_impurity_decrease := min_impurity_decrease;
     oob_score_ := None;
     random_state := random_state;
     random := RandomState random_state;
     trees := [];
     oob_votes := [] |}.

Definition set_max_features (self : RandomForestClassifier) (k : option nat)
  : RandomForestClassifier :=
  {| n_estimators := n_estimators self;
     max_depth := max_depth self;
     min_samples_split := min_samples_split self;
     max_features := k;
     min_impurity_decrease := min_impurity_decrease self;
     oob_score_ := oob_score_ self;
     random_state := random_state self;
     random := random self;
     trees := trees self;
     oob_votes := oob_votes self |}.

Definition set_oob_score_ (self : RandomForestClassifier) (score : option float)
  : RandomForestClassifier :=
  {| n_estimators := n_estimators self;
     max_depth := max_depth self;
     min_samples_split := min_samples_split self;
     max_features := max_features self;
     min_impurity_decrease := min_impurity_decrease self;
     oob_score_ := score;
     random_state := random_state self;
     random := random self;
     trees := trees self;
     oob_votes := oob_votes self |}.

Definition set_random (self : RandomForestClassifier) (r : rng)
  : RandomForestClassifier :=
  {| n_estimators := n_estimators self;
     max_depth := max_depth self;
     min_samples_split := min_samples_split self;
     max_features := max_features self;
     min_impurity_decrease := min_impurity_decrease self;
     oob_score_ := oob_score_ self;
     random_state := random_state self;
     random := r;
     trees := trees self;
     oob_votes := oob_votes self |}.

Definition set_trees (self : RandomForestClassifier)
    (ts : list DecisionTree.DecisionTreeClassifier) : RandomForestClassifier :=
  {| n_estimators := n_estimators self;
     max_depth := max_depth self;
     min_samples_split := min_samples_split self;
     max_features := max_features self;
     min_impurity_decrease := min_impurity_decrease self;
     oob_score_ := oob_score_ self;
     random_state := random_state self;
     random := random self;
     trees := ts;
     oob_votes := oob_votes self |}.

Definition set_oob_votes (self : RandomForestClassifier)
    (votes : list (list nat)) : RandomForestClassifier :=
  {| n_estimators := n_estimators self;
     max_depth := max_depth self;
     min_samples_split := min_samples_split self;
     max_features := max_features self;
     min_impurity_decrease := min_impurity_decrease self;
     oob_score_ := oob_score_ self;
     random_state := random_state self;
     random := random self;
     trees := trees self;
     oob_votes := votes |}.

Definition _bootstrap_sample (self : RandomForestClassifier) (X : matrix)
    (y : ndarray) : result (list nat * list nat * RandomForestClassifier) :=
  let '(n_samples, n_features) := shape X in
  '(bootstrap_indices, r) <- choice (random self) n_samples n_samples true ;;
  let oob_indices := np_setdiff1d (seq 0 n_samples) bootstrap_indices in
  Ok (bootstrap_indices, oob_indices, set_random self r).

(** What one round hands back: the tree, its OOB predictions and the OOB
    indices. *)
Definition round : Type :=
  DecisionTree.DecisionTreeClassifier * list Z * list nat.

Definition _train_tree (fuel : nat) (self : RandomForestClassifier)
    (X : matrix) (y : ndarray) (tree_idx : nat)
    (bootstrap_indices oob_indices : list nat) : result round :=
  X_bootstrap <- take_rows X bootstrap_indices ;;
  y_bootstrap <- np_take y bootstrap_indices ;;
  let tree :=
    DecisionTree.__init__ (max_depth self) (min_samples_split self)
      (max_features self) (min_impurity_decrease self) (random_state self)
      false in
  tree <- DecisionTree.fit fuel tree X_bootstrap y_bootstrap ;;
  X_oob <- take_rows X oob_indices ;;
  oob_pred <-
    (if (0 <? length (rows X_oob))%nat
     then p <- DecisionTree.predict tree X_oob ;; int_array p
     else Ok []) ;;
  _ <- np_take y oob_indices ;;
  Ok (tree, oob_pred, oob_indices).

(** [self.oob_votes[idx, prediction] += 1] *)
Definition vote (votes : list (list nat)) (idx : nat) (prediction : Z)
  : result (list (list nat)) :=
  match nth_error votes idx with
  | None => Raise IndexError
  | Some row =>
      j <- np_index (length row) prediction ;;
      Ok (update (update S j) idx votes)
  end.

Fixpoint record_votes (votes : list (list nat)) (pairs : list (nat * Z))
  : result (list (list nat)) :=
  match pairs with
  | [] => Ok votes
  | (idx, prediction) :: rest =>
      votes' <- vote votes idx prediction ;;
      record_votes votes' rest
  end.

(** The loop of [fit] over the collected results. *)
Fixpoint merge_results (results : list round) (self : RandomForestClassifier)
  : result RandomForestClassifier :=
  match results with
  | [] => Ok self
  | (tree, oob_pred, oob_indices) :: rest =>
      let self := set_trees self (trees self ++ [tree]) in
      votes <- record_votes (oob_votes self) (combine oob_indices oob_pred) ;;
      merge_results rest (set_oob_votes self votes)
  end.

(** [oob_predictions == y[oob_mask]], element by element. *)
Definition np_equal (predictions : list nat) (y : ndarray) : list bool :=
  match y with
  | IntArray l => map (fun pz => Z.of_nat (fst pz) =? snd pz) (combine predictions l)
  | FloatArray l =>
      map (fun pq => Qeq_bool (inject_Z (Z.of_nat (fst pq))) (snd pq))
          (combine predictions l)
  end.

Definition np_mask (y : ndarray) (mask : list bool) : result ndarray :=
  match y with
  | IntArray l => l' <- np_compress mask l ;; Ok (IntArray l')
  | FloatArray l => l' <- np_compress mask l ;; Ok (FloatArray l')
  end.

Definition bool_float (b : bool) : float := if b then Fl 1 else Fl 0.

Definition _calculate_oob_score (self : RandomForestClassifier) (y : ndarray)
  : result RandomForestClassifier :=
  let oob_mask := map (fun row => (0 <? list_sum row)%nat) (oob_votes self) in
  if existsb (fun b => b) oob_mask then
    voted <- np_compress oob_mask (oob_votes self) ;;
    oob_predictions <- mapM np_argmax voted ;;
    y_voted <- np_mask y oob_mask ;;
    let hits := np_equal oob_predictions y_voted in
    Ok (set_oob_score_ self (Some (np_mean (map bool_float hits))))
  else Ok self.

(** The rounds of [fit], in submission order: the bootstrap draw of a round
    is made by the forest's generator, the training does not touch it. *)
Fixpoint train_rounds (fuel : nat) (self : RandomForestClassifier)
    (X : matrix) (y : ndarray) (tree_idxs : list nat)
  : result (list round * RandomForestClassifier) :=
  match tree_idxs with
  | [] => Ok ([], self)
  | i :: rest =>
      '(bootstrap_indices, oob_indices, self) <- _bootstrap_sample self X y ;;
      r <- _train_tree fuel self X y i bootstrap_indices oob_indices ;;
      '(rs, self) <- train_rounds fuel self X y rest ;;
      Ok (r :: rs, self)
  end.

(** [self.max_features or int(np.sqrt(n_features))] *)
Definition max_features_or_sqrt (k : option nat) (n_features : nat) : option nat :=
  match k with
  | Some (S k') => Some (S k')
  | _ => Some (Nat.sqrt n_features)
  end.

(** [np.zeros((n_samples, np.max(y) + 1))] *)
Definition fresh_votes (n_samples : nat) (y : ndarray) : result (list (list nat)) :=
  match y with
  | FloatArray _ => Raise TypeError
  | IntArray l =>
      top <- np_max l ;;
      if top + 1 <? 0 then Raise ValueError
      else Ok (np_zeros n_samples (Z.to_nat (top + 1)))
  end.

Definition fit (fuel : nat) (self : RandomForestClassifier) (X : matrix)
    (y : ndarray) : result RandomForestClassifier :=
  let '(n_samples, n_features) := shape X in
  let self :=
    set_max_features self (max_features_or_sqrt (max_features self) n_features) in
  votes <- fresh_votes n_samples y ;;
  let self := set_oob_votes self votes in
  '(results, self) <- train_rounds fuel self X y (seq 0 (n_estimators self)) ;;
  self <- merge_results results self ;;
  _calculate_oob_score self y.

Definition predict (self : RandomForestClassifier) (X : matrix)
  : result (list Z) :=
  predictions <-
    mapM (fun tree => p <- DecisionTree.predict tree X ;; int_array p)
         (trees self) ;;
  let prediction := stats_mode predictions in
  Ok prediction.

End Methods.
End RandomForest.

(** ** A concrete numerical environment

    Used to run the model on examples: a linear congruential generator
    stands for the Mersenne twister, and the logarithm is the exact one on
    powers of two. *)

Definition lcg_next (s : Z) : Z := (s * 1103515245 + 12345) mod 2147483648.

Fixpoint lcg_draws (s : Z) (a size : nat) : list nat * Z :=
  match size with
  | O => ([], s)
  | S size' =>
      let s' := lcg_next s in
      let '(rest, s'') := lcg_draws s' a size' in
      (Z.to_nat ((s' / 65536) mod Z.of_nat a) :: rest, s'')
  end.

Fixpoint lcg_picks (s : Z) (pool : list nat) (size : nat) : list nat * Z :=
  match size with
  | O => ([], s)
  | S size' =>
      let s' := lcg_next s in
      let k := Z.to_nat ((s' / 65536) mod Z.of_nat (length pool)) in
      let '(rest, s'') := lcg_picks s' (firstn k pool ++ skipn (S k) pool) size' in
      (nth k pool 0%nat :: rest, s'')
  end.

Definition lcg_choice (s : Z) (a size : nat) (replace : bool)
  : result (list nat * Z) :=
  if replace then
    if (a =? 0)%nat && negb (size =? 0)%nat then Raise ValueError
    else Ok (lcg_draws s a size)
  else
    if (a <? size)%nat then Raise ValueError
    else Ok (lcg_picks s (seq 0 a) size).

Definition log2_dyadic (q : Q) : Q :=
  inject_Z (Z.log2 (Qnum q) - Z.log2 (Zpos (Qden q))).

Definition lcg_numpy : Numpy :=
  {| rng := Z;
     RandomState := fun seed => seed mod 2147483648;
     choice := lcg_choice;
     log2 := log2_dyadic |}.

(** [fit] called on one dataset after the other, on the same forest. *)
Fixpoint fit_all `{Numpy} (fuel : nat) (self : RandomForest.RandomForestClassifier)
    (datasets : list (matrix * ndarray)) : result RandomForest.RandomForestClassifier :=
  match datasets with
  | [] => Ok self
  | (X, y) :: rest =>
      self' <- RandomForest.fit fuel self X y ;;
      fit_all fuel self' rest
  end.

Definition raised {A : Type} (c : result A) : bool :=
  match c with
  | Ok _ => false
  | Raise _ => true
  end.

(** ** Notions used to state the properties *)

(** [r] is the first position of the largest entry of [l]. *)
Definition is_first_max (l : list nat) (r : nat) : Prop :=
  (r < length l)%nat /\
  (forall j, (nth j l 0 <= nth r l 0)%nat) /\
  (forall j, (j < r)%nat -> (nth j l 0 < nth r l 0)%nat).

(** The count recorded for [v] in the output of [np.unique]. *)
Fixpoint assoc (v : Z) (uc : list (Z * nat)) : nat :=
  match uc with
  | [] => 0
  | (b, c) :: rest => if v =? b then c else assoc v rest
  end.

(** The values of [uc] are strictly increasing. *)
Fixpoint ascending (uc : list (Z * nat)) : Prop :=
  match uc with
  | [] => True
  | p :: rest => (forall q, In q rest -> fst p < fst q) /\ ascending rest
  end.

(** The lowest of the most frequent values of a column. *)
Definition is_lowest_mode (col : list Z) (m : Z) : Prop :=
  In m col /\
  (forall v, (count_occ Z.eq_dec col v <= count_occ Z.eq_dec col m)%nat) /\
  (forall v, count_occ Z.eq_dec col v = count_occ Z.eq_dec col m -> m <= v).


Definition sum_Q (l : list Q) : Q := fold_right Qplus 0%Q l.

(** The mean of a vector, as the spec words it: the sum over the count. *)
Definition arithmetic_mean (l : list Q) : Q :=
  (sum_Q l / inject_Z (Z.of_nat (length l)))%Q.

(** [(f, t)] is a candidate pair of the split search on the node [(X, y)],
    with gain [g]. *)
Definition candidate `{Numpy} (self : DecisionTree.DecisionTreeClassifier)
    (X : matrix) (y : ndarray) (f : nat) (t : Q) (g : float) : Prop :=
  exists col,
    column X f = Ok col /\ In t (np_unique Qcompare col) /\
    DecisionTree._information_gain self y col t = Ok g.

(** The running best is either untouched or one of the pairs in [P]. *)
Definition chosen (P : nat -> Q -> float -> Prop)
    (best : option nat * option Q * float) : Prop :=
  let '(bf, bt, bg) := best in
  (bf = None /\ bt = None /\ bg = Inf true) \/
  (exists f t, bf = Some f /\ bt = Some t /\ P f t bg /\
               fgt bg (Inf true) = true).

(** The column that a vote for [prediction] on sample [idx] lands in, when
    both indices are in range. *)
Definition vote_cell (v : list (list nat)) (idx : nat) (prediction : Z)
  : option nat :=
  match nth_error (map (@length nat) v) idx with
  | None => None
  | Some width =>
      match np_index width prediction with
      | Ok j => Some j
      | Raise _ => None
      end
  end.

(** The (sample, label) pairs that one round contributes. *)
Definition round_pairs {T : Type} (r : T * list Z * list nat) : list (nat * Z) :=
  let '(_, oob_pred, oob_indices) := r in combine oob_indices oob_pred.

Definition round_tree {T : Type} (r : T * list Z * list nat) : T :=
  let '(tree, _, _) := r in tree.

(** The fitted [tree] predicts the integer label [v] for the row [x]. *)
Definition tree_predicts `{Numpy} (tree : DecisionTree.DecisionTreeClassifier)
    (x : list Q) (v : Z) : Prop :=
  exists node,
    DecisionTree.root tree = Some node /\
    DecisionTree._traverse_tree x node = Ok (VInt v).

(** The label with the most votes in a row of the accumulator, the lowest
    label on a tie. *)
Definition most_voted (row : list nat) : option nat :=
  find (fun j => forallb (fun c => (c <=? nth j row 0)%nat) row)
       (seq 0 (length row)).

Definition received_vote (row : list nat) : bool := (0 <? list_sum row)%nat.

Definition vote_is_right (rl : list nat * Z) : bool :=
  match most_voted (fst rl) with
  | Some p => Z.of_nat p =? snd rl
  | None => false
  end.

(** The OOB score as the spec words it: over the samples that received a
    vote, the share whose most voted label is the true one; no score when
    no sample received a vote. *)
Definition oob_accuracy (votes : list (list nat)) (labels : list Z) : option Q :=
  let scored := filter (fun rl => received_vote (fst rl)) (combine votes labels) in
  match scored with
  | [] => None
  | _ :: _ =>
      Some (inject_Z (Z.of_nat (length (filter vote_is_right scored))) /
            inject_Z (Z.of_nat (length scored)))%Q
  end.

(** ** Example data *)

(** A node where the first feature is constant and the second one splits
    the labels evenly on both sides. *)
Definition tied_tree : @DecisionTree.DecisionTreeClassifier lcg_numpy :=
  @DecisionTree.__init__ lcg_numpy (Some 3) 2 None (Fl 0) 42 false.

Definition tied_X : matrix :=
  {| rows := [[5; 0]; [5; 0]; [5; 1]; [5; 1]]%Q; n_columns := 2 |}.

Definition tied_y : ndarray := IntArray [0; 1; 0; 1].

(** The end-to-end example of the spec: one feature, labels [0,0,1,1]. *)
Definition ramp_X : matrix :=
  {| rows := [[0]; [1]; [2]; [3]]%Q; n_columns := 1 |}.

Definition ramp_y : ndarray := IntArray [0; 0; 1; 1].

Definition stump : @DecisionTree.DecisionTreeClassifier lcg_numpy :=
  @DecisionTree.__init__ lcg_numpy (Some 1) 2 None (Fl 0) 42 false.

Definition label_zero_tree : @DecisionTree.DecisionTreeClassifier lcg_numpy :=
  DecisionTree.set_root tied_tree (Some (Leaf (VInt 0))).

Definition label_one_tree : @DecisionTree.DecisionTreeClassifier lcg_numpy :=
  DecisionTree.set_root tied_tree (Some (Leaf (VInt 1))).

(** Two rounds with a common OOB sample, for running the merge. *)
Definition round_a : @RandomForest.round lcg_numpy :=
  (label_zero_tree, [0; 1], [0; 2]%nat).

Definition round_b : @RandomForest.round lcg_numpy :=
  (label_one_tree, [1; 1], [1; 2]%nat).

Definition new_forest : @RandomForest.RandomForestClassifier lcg_numpy :=
  @RandomForest.__init__ lcg_numpy 3 (Some 3) 2 None (Fl 0) 42.

Definition empty_forest : @RandomForest.RandomForestClassifier lcg_numpy :=
  RandomForest.set_oob_votes new_forest (np_zeros 3 2).

Definition three_trees : @RandomForest.RandomForestClassifier lcg_numpy :=
  RandomForest.set_trees empty_forest
    [label_zero_tree; label_one_tree; label_one_tree].

Definition one_row : matrix := {| rows := [[7]]%Q; n_columns := 1 |}.

(** A forest whose accumulator holds votes for the first and the third of
    three samples; the first sample is tied between the two labels. *)
Definition voted_forest : @RandomForest.RandomForestClassifier lcg_numpy :=
  RandomForest.set_oob_votes empty_forest [[1; 1]; [0; 0]; [0; 2]]%nat.

Definition six_X : matrix :=
  {| rows := [[0; 1]; [1; 1]; [2; 0]; [3; 0]; [4; 1]; [5; 0]]%Q;
     n_columns := 2 |}.

Definition six_y : ndarray := IntArray [0; 0; 1; 1; 0; 1].

(** ** Notions used to state further properties *)

Fixpoint height (node : Node) : nat :=
  match node with
  | Leaf _ => 0
  | Decision _ _ left_child right_child =>
      S (Nat.max (height left_child) (height right_child))
  end.

(** Every leaf of the tree holds a value in [P]. *)
Fixpoint all_leaves (P : value -> Prop) (node : Node) : Prop :=
  match node with
  | Leaf v => P v
  | Decision _ _ left_child right_child =>
      all_leaves P left_child /\ all_leaves P right_child
  end.

(** Every decision node tests a feature index below [n]. *)
Fixpoint features_below (n : nat) (node : Node) : Prop :=
  match node with
  | Leaf _ => True
  | Decision feature _ left_child right_child =>
      (feature < n)%nat /\ features_below n left_child /\
      features_below n right_child
  end.

(** Two tree objects agree on everything [__init__] took as an argument. *)
Definition same_parameters `{Numpy}
    (a b : DecisionTree.DecisionTreeClassifier) : Prop :=
  DecisionTree.max_depth a = DecisionTree.max_depth b /\
  DecisionTree.min_samples_split a = DecisionTree.min_samples_split b /\
  DecisionTree.max_features a = DecisionTree.max_features b /\
  DecisionTree.min_impurity_decrease a = DecisionTree.min_impurity_decrease b /\
  DecisionTree.random_state a = DecisionTree.random_state b /\
  DecisionTree.is_regression a = DecisionTree.is_regression b.

(** The number of votes held by the accumulator. *)
Definition total_votes (v : list (list nat)) : nat := list_sum (map list_sum v).

(** The positions of [l] hold strictly increasing indices. *)
Fixpoint increasing (l : list nat) : Prop :=
  match l with
  | [] => True
  | i :: rest => (forall j, In j rest -> (i < j)%nat) /\ increasing rest
  end.

(** The arguments of the forest's [__init__] that shape its trees. *)
Definition forest_parameters `{Numpy} (self : RandomForest.RandomForestClassifier)
  : nat * option Z * Z * option nat * float * Z :=
  (RandomForest.n_estimators self, RandomForest.max_depth self,
   RandomForest.min_samples_split self, RandomForest.max_features self,
   RandomForest.min_impurity_decrease self, RandomForest.random_state self).

(** A fitted tree that was built with the forest's parameters. *)
Definition tree_of_forest `{Numpy} (self : RandomForest.RandomForestClassifier)
    (tree : DecisionTree.DecisionTreeClassifier) : Prop :=
  DecisionTree.root tree <> None /\
  DecisionTree.max_depth tree = RandomForest.max_depth self /\
  DecisionTree.min_samples_split tree = RandomForest.min_samples_split self /\
  DecisionTree.max_features tree = RandomForest.max_features self /\
  DecisionTree.min_impurity_decrease tree = RandomForest.min_impurity_decrease self /\
  DecisionTree.random_state tree = RandomForest.random_state self /\
  DecisionTree.is_regression tree = false.




(** ** Properties of the numpy layer *)

Lemma Qlt_bool_iff (x y : Q) : Qlt_bool x y = true <-> (x < y)%Q.
Proof. unfold Qlt_bool, Qlt. apply Z.ltb_lt. Qed.

Lemma Qlt_bool_negb_le (x y : Q) : Qlt_bool x y = negb (Qle_bool y x).
Proof.
  unfold Qlt_bool, Qle_bool. now rewrite Z.ltb_antisym.
Qed.

Lemma In_argwhere_from (mask : list bool) :
  forall i k, In k (argwhere_from i mask) <->
              (i <= k)%nat /\ nth_error mask (k - i) = Some true.
Proof.
  induction mask as [|b mask IH]; intros i k; simpl.
  - split; [tauto|]. intros [_ H]. now destruct (k - i)%nat.
  - assert (Hstep : forall j, (S i <= j)%nat ->
                      nth_error (b :: mask) (j - i) = nth_error mask (j - S i)).
    { intros j Hj. replace (j - i)%nat with (S (j - S i)) by lia. reflexivity. }
    destruct b; simpl; rewrite ?IH.
    + split.
      * intros [<- | [Hle Hn]].
        -- split; [lia|]. now rewrite Nat.sub_diag.
        -- split; [lia|]. now rewrite Hstep.
      * intros [Hle Hn]. destruct (Nat.eq_dec i k) as [->|Hne]; [now left|].
        right. split; [lia|]. rewrite <- Hstep by lia. exact Hn.
    + split.
      * intros [Hle Hn]. split; [lia|]. now rewrite Hstep.
      * intros [Hle Hn]. destruct (Nat.eq_dec i k) as [->|Hne].
        -- rewrite Nat.sub_diag in Hn. discriminate.
        -- split; [lia|]. rewrite <- Hstep by lia. exact Hn.
Qed.

Lemma In_np_argwhere (mask : list bool) (k : nat) :
  In k (np_argwhere mask) <-> nth_error mask k = Some true.
Proof.
  unfold np_argwhere. rewrite In_argwhere_from, Nat.sub_0_r.
  split; [tauto | intros H; split; [lia | exact H]].
Qed.

Lemma In_split_left (feature : list Q) (t : Q) (k : nat) :
  In k (fst (DecisionTree._split feature t)) <->
  exists v, nth_error feature k = Some v /\ Qle_bool v t = true.
Proof.
  simpl. rewrite In_np_argwhere, nth_error_map.
  destruct (nth_error feature k) as [v|]; simpl.
  - split.
    + intros [= H]. now exists v.
    + intros (w & [= <-] & H). now rewrite H.
  - split; [discriminate | intros (w & H & _); discriminate].
Qed.

Lemma In_split_right (feature : list Q) (t : Q) (k : nat) :
  In k (snd (DecisionTree._split feature t)) <->
  exists v, nth_error feature k = Some v /\ Qlt_bool t v = true.
Proof.
  simpl. rewrite In_np_argwhere, nth_error_map.
  destruct (nth_error feature k) as [v|]; simpl.
  - split.
    + intros [= H]. now exists v.
    + intros (w & [= <-] & H). now rewrite H.
  - split; [discriminate | intros (w & H & _); discriminate].
Qed.



(** ** The stopping test of [_grow_tree] *)

Section GrowTree.
Context `{Numpy}.

Lemma grow_tree_max_depth_None (fuel : nat)
    (self : DecisionTree.DecisionTreeClassifier) (X : matrix) (y : ndarray)
    (depth : Z) :
  DecisionTree.max_depth self = None ->
  DecisionTree._grow_tree (S fuel) self X y depth = Raise TypeError.
Proof.
  intros Hnone. simpl. rewrite Hnone. reflexivity.
Qed.

(** C1: a tree built with [max_depth] left unset does not get past the
    stopping test: at the root, [depth >= self.max_depth] compares an [int]
    with [None], so [_grow_tree] and [fit] raise [TypeError] on every
    dataset, whatever the other parameters and however large the recursion
    limit. *)
Theorem fit_without_max_depth_raises (fuel : nat) (min_samples_split : Z)
    (max_features : option nat) (min_impurity_decrease : float)
    (random_state : Z) (is_regression : bool) (X : matrix) (y : ndarray) :
  let self :=
    DecisionTree.__init__ None min_samples_split max_features
      min_impurity_decrease random_state is_regression in
  (forall depth, DecisionTree._grow_tree (S fuel) self X y depth = Raise TypeError) /\
  DecisionTree.fit (S fuel) self X y = Raise TypeError.
Proof.
  cbv zeta. split.
  - intros depth. now apply grow_tree_max_depth_None.
  - unfold DecisionTree.fit. now rewrite grow_tree_max_depth_None.
Qed.

(** C8: the most common label of an empty label vector is [None]: the call
    returns normally, and what it returns is not the label 0. *)
Theorem most_common_label_empty (y : ndarray) :
  len y = 0%nat ->
  DecisionTree._most_common_label y = Ok VNone /\
  DecisionTree._most_common_label y <> Ok (VInt 0).
Proof.
  intros Hlen. unfold DecisionTree._most_common_label. rewrite Hlen. simpl.
  split; [reflexivity | discriminate].
Qed.

End GrowTree.

(** The end-to-end example of the spec: a tree of depth 1 on the four
    samples 0, 1, 2, 3 with labels 0, 0, 1, 1 splits feature 0 at
    threshold 1, with the leaves 0 and 1. *)
Example fit_stump_on_ramp :
  match @DecisionTree.fit lcg_numpy 10 stump ramp_X ramp_y with
  | Ok tree => DecisionTree.root tree
  | Raise _ => None
  end = Some (Decision 0 1 (Leaf (VInt 0)) (Leaf (VInt 1))).
Proof. vm_compute. reflexivity. Qed.

Lemma most_common_label_empty_witness :
  len (IntArray []) = 0%nat /\
  DecisionTree._most_common_label (IntArray []) = Ok VNone /\
  DecisionTree._most_common_label (IntArray []) <> Ok (VInt 0).
Proof.
  split; [reflexivity | apply (most_common_label_empty (IntArray [])); reflexivity].
Defined.

(** ** [np.argmax]: the first position of the largest entry *)

Lemma argmax_from_first_max (l : list nat) :
  forall (pre : list nat) (best_i : nat),
    is_first_max pre best_i ->
    is_first_max (pre ++ l)
      (argmax_from (length pre) best_i (nth best_i pre 0%nat) l).
Proof.
  induction l as [|c l IH]; intros pre best_i Hmax; simpl.
  - now rewrite app_nil_r.
  - destruct Hmax as (Hlt & Hge & Hfirst).
    assert (Hsnoc : forall j, (j < length pre)%nat ->
                      nth j (pre ++ [c]) 0%nat = nth j pre 0%nat).
    { intros j Hj. now apply app_nth1. }
    assert (Hlast : nth (length pre) (pre ++ [c]) 0%nat = c).
    { rewrite app_nth2 by lia. now rewrite Nat.sub_diag. }
    assert (Hlen : length (pre ++ [c]) = S (length pre)).
    { rewrite length_app. simpl. lia. }
    replace (pre ++ c :: l) with ((pre ++ [c]) ++ l)
      by now rewrite <- app_assoc.
    destruct (nth best_i pre 0 <? c)%nat eqn:Hcmp.
    + apply Nat.ltb_lt in Hcmp.
      pose proof (IH (pre ++ [c]) (length pre)) as IH1.
      rewrite Hlast, Hlen in IH1. apply IH1. repeat split.
      * lia.
      * intros j. rewrite Hlast.
        destruct (Nat.lt_ge_cases j (length pre)) as [Hj | Hj].
        -- rewrite Hsnoc by exact Hj. specialize (Hge j). lia.
        -- destruct (Nat.eq_dec j (length pre)) as [-> | Hne].
           ++ now rewrite Hlast.
           ++ rewrite nth_overflow; lia.
      * intros j Hj. rewrite Hlast, Hsnoc by exact Hj. specialize (Hge j). lia.
    + apply Nat.ltb_ge in Hcmp.
      pose proof (IH (pre ++ [c]) best_i) as IH1.
      rewrite (Hsnoc best_i Hlt), Hlen in IH1. apply IH1. repeat split.
      * lia.
      * intros j. rewrite (Hsnoc best_i Hlt).
        destruct (Nat.lt_ge_cases j (length pre)) as [Hj | Hj].
        -- rewrite Hsnoc by exact Hj. apply Hge.
        -- destruct (Nat.eq_dec j (length pre)) as [-> | Hne].
           ++ now rewrite Hlast.
           ++ rewrite nth_overflow; lia.
      * intros j Hj. rewrite (Hsnoc best_i Hlt), Hsnoc by lia.
        now apply Hfirst.
Qed.

Lemma np_argmax_first_max (l : list nat) :
  l <> [] -> exists r, np_argmax l = Ok r /\ is_first_max l r.
Proof.
  destruct l as [|c l]; [congruence|]. intros _.
  exists (argmax_from 1 0 c l). split; [reflexivity|].
  apply (argmax_from_first_max l [c] 0%nat). repeat split; simpl.
  - lia.
  - intros [|[|j]]; simpl; lia.
  - intros j Hj. lia.
Qed.

Lemma np_argmax_Ok (l : list nat) (r : nat) :
  np_argmax l = Ok r -> is_first_max l r.
Proof.
  intros Hr. destruct l as [|c l]; [discriminate|].
  destruct (np_argmax_first_max (c :: l)) as (r' & Hr' & Hmax); [discriminate|].
  congruence.
Qed.

Lemma is_first_max_unique (l : list nat) (r r' : nat) :
  is_first_max l r -> is_first_max l r' -> r = r'.
Proof.
  intros (_ & Hge & Hfirst) (_ & Hge' & Hfirst').
  destruct (Nat.lt_trichotomy r r') as [Hlt | [Heq | Hgt]]; [|exact Heq|].
  - specialize (Hfirst' r Hlt). specialize (Hge r'). lia.
  - specialize (Hfirst r' Hgt). specialize (Hge' r). lia.
Qed.

Lemma nth_map_seq (f : nat -> nat) (n j : nat) :
  (j < n)%nat -> nth j (map f (seq 0 n)) 0%nat = f j.
Proof.
  intros Hj. rewrite (nth_indep _ 0%nat (f 0%nat)) by now rewrite length_map, length_seq.
  rewrite map_nth, seq_nth by exact Hj. reflexivity.
Qed.

(** ** [np.unique] with counts *)

Lemma insert_count_nonempty {A : Type} (cmp : A -> A -> comparison) (a : A)
    (uc : list (A * nat)) :
  insert_count cmp a uc <> [].
Proof.
  destruct uc as [|[b c] uc]; simpl; [discriminate|].
  destruct (cmp a b); discriminate.
Qed.

Lemma unique_counts_constant {A : Type} (cmp : A -> A -> comparison) (c : A)
    (l : list A) :
  cmp c c = Eq -> l <> [] -> (forall x, In x l -> x = c) ->
  unique_counts cmp l = [(c, length l)].
Proof.
  intros Hrefl. induction l as [|a l IH]; intros Hne Hall; [congruence|].
  assert (Ha : a = c) by (apply Hall; now left). subst a.
  destruct l as [|b l]; [reflexivity|].
  change (unique_counts cmp (c :: b :: l))
    with (insert_count cmp c (unique_counts cmp (b :: l))).
  rewrite IH; [|discriminate | intros x Hx; apply Hall; now right].
  simpl. now rewrite Hrefl.
Qed.

Lemma In_insert_count_fst (a : Z) (uc : list (Z * nat)) (p : Z * nat) :
  In p (insert_count Z.compare a uc) -> fst p = a \/ In (fst p) (map fst uc).
Proof.
  induction uc as [|[b c] uc IH]; simpl.
  - intros [<- | []]. now left.
  - destruct (Z.compare_spec a b) as [Heq | Hlt | Hgt]; simpl.
    + intros [<- | Hin]; simpl; [right; now left|].
      right. right. now apply in_map.
    + intros [<- | [<- | Hin]]; simpl; [now left | right; now left |].
      right. right. now apply in_map.
    + intros [<- | Hin]; simpl; [right; now left|].
      destruct (IH Hin) as [-> | Hin']; [now left | right; now right].
Qed.

Lemma ascending_insert_count (a : Z) (uc : list (Z * nat)) :
  ascending uc -> ascending (insert_count Z.compare a uc).
Proof.
  induction uc as [|[b c] uc IH]; simpl.
  - intros _. split; [intros q []| exact I].
  - intros [Hhead Htail].
    destruct (Z.compare_spec a b) as [Heq | Hlt | Hgt]; simpl.
    + split; [exact Hhead | exact Htail].
    + split; [|split; [exact Hhead | exact Htail]].
      intros q [<- | Hq]; simpl; [exact Hlt|].
      specialize (Hhead q Hq). simpl in Hhead. lia.
    + split; [|now apply IH].
      intros q Hq. apply In_insert_count_fst in Hq as [-> | Hq]; [lia|].
      apply in_map_iff in Hq as (q' & Hfst & Hq').
      rewrite <- Hfst. exact (Hhead q' Hq').
Qed.

Lemma assoc_below (a : Z) (uc : list (Z * nat)) :
  (forall q, In q uc -> a < fst q) -> assoc a uc = 0%nat.
Proof.
  induction uc as [|[b c] uc IH]; intros Hlow; simpl; [reflexivity|].
  assert (Hab : a < b) by exact (Hlow (b, c) (or_introl eq_refl)).
  destruct (Z.eqb_spec a b); [lia|].
  apply IH. intros q Hq. apply Hlow. now right.
Qed.

Lemma assoc_insert_count (a v : Z) (uc : list (Z * nat)) :
  ascending uc ->
  assoc v (insert_count Z.compare a uc) =
  if v =? a then S (assoc a uc) else assoc v uc.
Proof.
  induction uc as [|[b c] uc IH]; simpl.
  - intros _. reflexivity.
  - intros [Hhead Htail].
    destruct (Z.compare_spec a b) as [Heq | Hlt | Hgt]; simpl.
    + subst b. rewrite Z.eqb_refl. now destruct (Z.eqb_spec v a).
    + destruct (Z.eqb_spec a b); [lia|].
      rewrite (assoc_below a uc).
      * reflexivity.
      * intros q Hq. specialize (Hhead q Hq). simpl in Hhead. lia.
    + destruct (Z.eqb_spec a b); [lia|].
      rewrite IH by exact Htail.
      destruct (Z.eqb_spec v b), (Z.eqb_spec v a); try reflexivity; lia.
Qed.

Lemma ascending_unique_counts (l : list Z) :
  ascending (unique_counts Z.compare l).
Proof.
  induction l as [|a l IH]; simpl; [exact I|].
  now apply ascending_insert_count.
Qed.

Lemma assoc_unique_counts (l : list Z) (v : Z) :
  assoc v (unique_counts Z.compare l) = count_occ Z.eq_dec l v.
Proof.
  induction l as [|a l IH]; simpl; [reflexivity|].
  rewrite assoc_insert_count by apply ascending_unique_counts.
  destruct (Z.eq_dec a v) as [-> | Hne].
  - rewrite Z.eqb_refl. now rewrite IH.
  - destruct (Z.eqb_spec v a); [congruence | exact IH].
Qed.

Lemma assoc_In (uc : list (Z * nat)) (v : Z) (c : nat) :
  ascending uc -> In (v, c) uc -> assoc v uc = c.
Proof.
  induction uc as [|[b k] uc IH]; simpl; [tauto|].
  intros [Hhead Htail] [[= -> ->] | Hin].
  - now rewrite Z.eqb_refl.
  - specialize (Hhead (v, c) Hin). simpl in Hhead.
    destruct (Z.eqb_spec v b); [lia | now apply IH].
Qed.

Lemma In_assoc (uc : list (Z * nat)) (v : Z) :
  (0 < assoc v uc)%nat -> In (v, assoc v uc) uc.
Proof.
  induction uc as [|[b k] uc IH]; simpl; [lia|].
  destruct (Z.eqb_spec v b) as [-> | Hne]; [now left | right; now apply IH].
Qed.

Lemma ascending_nth (uc : list (Z * nat)) (d : Z * nat) :
  ascending uc ->
  forall i j, (i <= j)%nat -> (j < length uc)%nat ->
              fst (nth i uc d) <= fst (nth j uc d).
Proof.
  induction uc as [|p uc IH]; simpl; [lia|].
  intros [Hhead Htail] [|i] [|j] Hij Hj; try lia.
  - specialize (Hhead (nth j uc d)). 
    assert (In (nth j uc d) uc) by (apply nth_In; lia). 
    specialize (Hhead H). lia.
  - apply IH; [exact Htail | lia | lia].
Qed.

(** ** [scipy.stats.mode] *)

Lemma mode_is_lowest_mode (col : list Z) :
  col <> [] -> is_lowest_mode col (mode col).
Proof.
  intros Hne. unfold mode.
  set (vc := unique_counts Z.compare col).
  assert (Hasc : ascending vc) by apply ascending_unique_counts.
  assert (Hvc : vc <> []).
  { unfold vc. destruct col as [|a col]; [congruence|]. simpl.
    apply insert_count_nonempty. }
  destruct (np_argmax_first_max (map snd vc)) as (i & Hi & Hlt & Hge & Hfirst).
  { destruct vc; [congruence | discriminate]. }
  rewrite Hi. rewrite length_map in Hlt.
  assert (Hsnd : forall j, (j < length vc)%nat ->
                   nth j (map snd vc) 0%nat = snd (nth j vc (0, 0%nat))).
  { intros j Hj. now rewrite (map_nth snd vc (0, 0%nat)). }
  change 0 with (fst (0, 0%nat)). rewrite map_nth.
  assert (Hcount : forall j, (j < length vc)%nat ->
            snd (nth j vc (0, 0%nat)) =
            count_occ Z.eq_dec col (fst (nth j vc (0, 0%nat)))).
  { intros j Hj. rewrite <- assoc_unique_counts. fold vc.
    symmetry. apply assoc_In; [exact Hasc|].
    rewrite <- surjective_pairing. now apply nth_In. }
  assert (Hpos : forall v, (0 < count_occ Z.eq_dec col v)%nat ->
            exists j, (j < length vc)%nat /\ fst (nth j vc (0, 0%nat)) = v).
  { intros v Hv. rewrite <- assoc_unique_counts in Hv. fold vc in Hv.
    apply In_assoc in Hv. apply (In_nth _ _ (0, 0%nat)) in Hv as (j & Hj & Hnth).
    exists j. split; [exact Hj | now rewrite Hnth]. }
  set (m := fst (nth i vc (0, 0%nat))).
  assert (Hall : forall v,
            (count_occ Z.eq_dec col v <= count_occ Z.eq_dec col m)%nat).
  { intros v. destruct (Nat.eq_dec (count_occ Z.eq_dec col v) 0) as [-> | Hv]; [lia|].
    destruct (Hpos v) as (j & Hj & <-); [lia|].
    unfold m. rewrite <- !Hcount, <- !Hsnd by assumption. apply Hge. }
  assert (Hin : In m col).
  { destruct col as [|a col]; [congruence|].
    apply (count_occ_In Z.eq_dec).
    assert (0 < count_occ Z.eq_dec (a :: col) a)%nat.
    { apply count_occ_In. now left. }
    specialize (Hall a). lia. }
  repeat split; [exact Hin | exact Hall |].
  intros v Hv.
  destruct (Hpos v) as (j & Hj & <-).
  { rewrite Hv. now apply count_occ_In. }
  destruct (Nat.lt_ge_cases j i) as [Hji | Hij].
  - specialize (Hfirst j Hji). rewrite !Hsnd, !Hcount in Hfirst by assumption.
    fold m in Hfirst. lia.
  - unfold m. now apply ascending_nth.
Qed.

(** ** Leaf values *)



Lemma fold_fadd_finite (l : list Q) :
  forall acc, exists q,
    fold_left fadd (map Fl l) (Fl acc) = Fl q /\ (q == acc + sum_Q l)%Q.
Proof.
  induction l as [|a l IH]; intros acc; simpl.
  - exists acc. split; [reflexivity | ring].
  - destruct (IH (acc + a)%Q) as (q & Hq & Heq).
    exists q. split; [exact Hq|]. rewrite Heq. ring.
Qed.

Lemma np_mean_arithmetic (l : list Q) :
  l <> [] ->
  exists q, np_mean (map Fl l) = Fl q /\ (q == arithmetic_mean l)%Q.
Proof.
  intros Hne. destruct l as [|a l]; [congruence|].
  unfold np_mean, np_sum.
  destruct (fold_fadd_finite (a :: l) 0%Q) as (q & Hq & Heq).
  change (map Fl (a :: l)) with (Fl a :: map Fl l) in *.
  cbv beta iota. rewrite Hq. simpl fdiv_count.
  eexists. split; [reflexivity|].
  unfold arithmetic_mean. rewrite Heq, length_map. 
  now rewrite Qplus_0_l.
Qed.

Lemma fold_max_upper (l : list Z) (z : Z) :
  In z l -> z <= fold_right Z.max (-1) l.
Proof.
  induction l as [|a l IH]; simpl; [tauto|].
  intros [-> | Hin]; [lia | specialize (IH Hin); lia].
Qed.

Lemma existsb_negative (l : list Z) :
  (forall z, In z l -> 0 <= z) -> existsb (fun z => z <? 0) l = false.
Proof.
  intros Hpos. induction l as [|a l IH]; simpl; [reflexivity|].
  rewrite IH by (intros z Hz; apply Hpos; now right).
  assert (0 <= a) by (apply Hpos; now left).
  destruct (Z.ltb_spec a 0); [lia | reflexivity].
Qed.

Lemma most_common_label_lowest_mode (l : list Z) :
  l <> [] -> (forall z, In z l -> 0 <= z) ->
  exists m counts,
    DecisionTree._most_common_label (IntArray l) = Ok (VInt m) /\
    np_bincount (IntArray l) = Ok counts /\
    is_first_max counts (Z.to_nat m) /\
    is_lowest_mode l m.
Proof.
  intros Hne Hpos. unfold DecisionTree._most_common_label. simpl len.
  destruct l as [|a0 l0] eqn:El; [congruence|]. rewrite <- El in *.
  assert (Hlen : (length l =? 0)%nat = false) by now rewrite El.
  rewrite Hlen. unfold np_bincount. rewrite existsb_negative by exact Hpos.
  set (top := fold_right Z.max (-1) l).
  set (counts := map (fun v => count_occ Z.eq_dec l (Z.of_nat v))
                     (seq 0 (Z.to_nat (top + 1)))).
  assert (Ha0 : In a0 l) by (rewrite El; now left).
  assert (Htop : 0 <= top).
  { pose proof (fold_max_upper l a0 Ha0). specialize (Hpos a0 Ha0).
    unfold top. lia. }
  assert (Hclen : length counts = Z.to_nat (top + 1)).
  { unfold counts. now rewrite length_map, length_seq. }
  destruct (np_argmax_first_max counts) as (i & Hi & Hmax).
  { intros Hnil. rewrite Hnil in Hclen. simpl in Hclen. lia. }
  simpl bind. rewrite Hi. simpl bind.
  exists (Z.of_nat i), counts. rewrite Nat2Z.id.
  split; [reflexivity|]. split; [reflexivity|]. split; [exact Hmax|].
  destruct Hmax as (Hlt & Hge & Hfirst).
  assert (Hnth : forall j, (j < length counts)%nat ->
                   nth j counts 0%nat = count_occ Z.eq_dec l (Z.of_nat j)).
  { intros j Hj. unfold counts. apply nth_map_seq. now rewrite <- Hclen. }
  assert (Hidx : forall v, In v l ->
             (Z.to_nat v < length counts)%nat /\ Z.of_nat (Z.to_nat v) = v).
  { intros v Hv. pose proof (fold_max_upper l v Hv). specialize (Hpos v Hv).
    fold top in H. rewrite Hclen. split; lia. }
  assert (Hall : forall v, (count_occ Z.eq_dec l v <=
                            count_occ Z.eq_dec l (Z.of_nat i))%nat).
  { intros v.
    destruct (Nat.eq_dec (count_occ Z.eq_dec l v) 0) as [-> | Hv]; [lia|].
    assert (Hin : In v l) by (apply (count_occ_In Z.eq_dec); lia).
    destruct (Hidx v Hin) as [Hj Hback].
    rewrite <- Hback at 1. rewrite <- !Hnth by assumption. apply Hge. }
  assert (Hin : In (Z.of_nat i) l).
  { apply (count_occ_In Z.eq_dec).
    assert (0 < count_occ Z.eq_dec l a0)%nat by now apply count_occ_In.
    specialize (Hall a0). lia. }
  repeat split; [exact Hin | exact Hall |].
  intros v Hv.
  assert (Hvin : In v l).
  { apply (count_occ_In Z.eq_dec). rewrite Hv. now apply count_occ_In. }
  destruct (Hidx v Hvin) as [Hj Hback].
  destruct (Nat.lt_ge_cases (Z.to_nat v) i) as [Hji | Hij]; [|lia].
  specialize (Hfirst _ Hji). rewrite !Hnth, Hback in Hfirst by assumption. lia.
Qed.

Section LeafValue.
Context `{Numpy}.


End LeafValue.


(** ** Datasets with a single label *)

Lemma sum_Q_constant (l : list Q) (c : Q) :
  (forall x, In x l -> x = c) ->
  (sum_Q l == inject_Z (Z.of_nat (length l)) * c)%Q.
Proof.
  induction l as [|a l IH]; intros Hall.
  - simpl. ring.
  - assert (Ha : a = c) by (apply Hall; now left). subst a.
    change (sum_Q (c :: l)) with (c + sum_Q l)%Q.
    rewrite IH by (intros x Hx; apply Hall; now right).
    change (length (c :: l)) with (S (length l)).
    rewrite Nat2Z.inj_succ. unfold Z.succ. rewrite inject_Z_plus. ring.
Qed.

Lemma arithmetic_mean_constant (l : list Q) (c : Q) :
  l <> [] -> (forall x, In x l -> x = c) -> (arithmetic_mean l == c)%Q.
Proof.
  intros Hne Hall. unfold arithmetic_mean. rewrite sum_Q_constant by exact Hall.
  rewrite Qmult_comm. apply Qdiv_mult_l.
  destruct l as [|a l]; [congruence|].
  change 0%Q with (inject_Z 0). rewrite inject_Z_injective. simpl length. lia.
Qed.

Section SingleLabel.
Context `{Numpy}.

Lemma grow_tree_single_label (fuel : nat)
    (self : DecisionTree.DecisionTreeClassifier) (X : matrix) (y : ndarray)
    (depth d : Z) :
  DecisionTree.max_depth self = Some d ->
  length (np_unique_counts y) = 1%nat ->
  DecisionTree._grow_tree (S fuel) self X y depth =
  (leaf_value <- DecisionTree._get_leaf_value self y ;;
   Ok (Leaf leaf_value, self)).
Proof.
  intros Hd Hone. simpl. rewrite Hd, Hone. simpl.
  now rewrite orb_true_r.
Qed.

(** With an integer [max_depth], a dataset whose labels all equal [c] is
    fitted to the single leaf [c]. *)
Lemma fit_constant_labels_bounded_depth (fuel : nat) (d min_samples_split : Z)
    (max_features : option nat) (min_impurity_decrease : float)
    (random_state : Z) (X : matrix) (l : list Z) (c : Z) :
  l <> [] -> (forall x, In x l -> x = c) -> 0 <= c ->
  let self :=
    DecisionTree.__init__ (Some d) min_samples_split max_features
      min_impurity_decrease random_state false in
  DecisionTree.fit (S fuel) self X (IntArray l) =
  Ok (DecisionTree.set_root self (Some (Leaf (VInt c)))).
Proof.
  intros Hne Hall Hc self. unfold DecisionTree.fit.
  rewrite (grow_tree_single_label fuel self X (IntArray l) 0 d); [|reflexivity|].
  - unfold DecisionTree._get_leaf_value. simpl DecisionTree.is_regression.
    destruct (most_common_label_lowest_mode l Hne) as (m & counts & Hm & _ & _ & Hin & _).
    { intros z Hz. now rewrite (Hall z Hz). }
    rewrite Hm. simpl. now rewrite (Hall m Hin).
  - simpl. rewrite (unique_counts_constant Z.compare c l);
      [reflexivity | apply Z.compare_refl | exact Hne | exact Hall].
Qed.

(** In regression mode, with an integer [max_depth], a constant target is
    fitted to a single leaf that holds its mean, the constant itself. *)
Lemma fit_constant_target_bounded_depth (fuel : nat) (d min_samples_split : Z)
    (max_features : option nat) (min_impurity_decrease : float)
    (random_state : Z) (X : matrix) (l : list Q) (c : Q) :
  l <> [] -> (forall x, In x l -> x = c) ->
  let self :=
    DecisionTree.__init__ (Some d) min_samples_split max_features
      min_impurity_decrease random_state true in
  exists q,
    DecisionTree.fit (S fuel) self X (FloatArray l) =
    Ok (DecisionTree.set_root self (Some (Leaf (VFloat (Fl q))))) /\
    (q == arithmetic_mean l)%Q /\ (q == c)%Q.
Proof.
  intros Hne Hall self. unfold DecisionTree.fit.
  rewrite (grow_tree_single_label fuel self X (FloatArray l) 0 d); [|reflexivity|].
  - unfold DecisionTree._get_leaf_value. simpl DecisionTree.is_regression.
    simpl as_floats.
    destruct (np_mean_arithmetic l Hne) as (q & Hq & Heq).
    exists q. rewrite Hq. split; [reflexivity|]. split; [exact Heq|].
    rewrite Heq. now apply arithmetic_mean_constant.
  - simpl. rewrite (unique_counts_constant Qcompare c l);
      [reflexivity | now apply Qeq_alt | exact Hne | exact Hall].
Qed.

(** C6: on a dataset whose labels are all identical, a tree left at the
    default [max_depth=None] yields no leaf: [fit] raises [TypeError], in
    classification mode and in regression mode alike. *)
Theorem fit_constant_labels_without_max_depth (fuel : nat)
    (min_samples_split : Z) (max_features : option nat)
    (min_impurity_decrease : float) (random_state : Z) (X : matrix)
    (c : Z) (q : Q) (n : nat) :
  DecisionTree.fit (S fuel)
    (DecisionTree.__init__ None min_samples_split max_features
       min_impurity_decrease random_state false)
    X (IntArray (repeat c (S n))) = Raise TypeError /\
  DecisionTree.fit (S fuel)
    (DecisionTree.__init__ None min_samples_split max_features
       min_impurity_decrease random_state true)
    X (FloatArray (repeat q (S n))) = Raise TypeError.
Proof.
  unfold DecisionTree.fit.
  split; now rewrite grow_tree_max_depth_None.
Qed.

End SingleLabel.

(** ** Comparison of gains *)

Lemma fgt_irrefl (g : float) : fgt g g = false.
Proof.
  destruct g as [|[|]|x]; simpl; try reflexivity.
  unfold Qlt_bool. apply Z.ltb_irrefl.
Qed.

Lemma fgt_above_neg_inf (g b : float) :
  fgt g b = true -> fgt g (Inf true) = true.
Proof. destruct g as [|[|]|x], b as [|[|]|y]; simpl; congruence. Qed.

Lemma Qlt_bool_false_trans (x y z : Q) :
  Qlt_bool y x = true -> Qlt_bool y z = false -> Qlt_bool x z = false.
Proof.
  intros Hyx Hyz. apply Qlt_bool_iff in Hyx.
  destruct (Qlt_bool x z) eqn:Hxz; [|reflexivity].
  apply Qlt_bool_iff in Hxz.
  assert (Habs : Qlt_bool y z = true).
  { apply Qlt_bool_iff. now apply Qlt_trans with x. }
  congruence.
Qed.

(** Once the running best has been raised from [b] to [g'], whatever did
    not beat [b] does not beat [g'] either. *)
Lemma fgt_raise (g g' b : float) :
  fgt g' b = true -> fgt g b = false -> fgt g g' = false.
Proof.
  destruct g as [|[|]|x], g' as [|[|]|x'], b as [|[|]|y]; simpl;
    try congruence.
  apply Qlt_bool_false_trans.
Qed.

(** ** The split search *)

Section SplitSearch.
Context `{Numpy}.
Variable self : DecisionTree.DecisionTreeClassifier.
Variable X : matrix.
Variable y : ndarray.

Lemma chosen_weaken (P P' : nat -> Q -> float -> Prop)
    (best : DecisionTree.criteria) :
  (forall f t g, P f t g -> P' f t g) -> chosen P best -> chosen P' best.
Proof.
  intros Himp. destruct best as [[bf bt] bg]. simpl.
  intros [Hnone | (f & t & Hf & Ht & HP & Hgt)]; [now left|].
  right. exists f, t. auto.
Qed.

Lemma information_gain_empty_side (feature : list Q) (t : Q) :
  fst (DecisionTree._split feature t) = [] \/
  snd (DecisionTree._split feature t) = [] ->
  DecisionTree._information_gain self y feature t = Ok (Fl 0).
Proof.
  intros Hside. unfold DecisionTree._information_gain.
  destruct (DecisionTree._split feature t) as [left_idxs right_idxs].
  simpl in Hside. destruct Hside as [-> | ->]; simpl; [reflexivity|].
  now rewrite orb_true_r.
Qed.

Lemma search_thresholds_inv (idx : nat) (feature : list Q)
    (P : nat -> Q -> float -> Prop) (ths : list Q) :
  (forall t g, In t ths ->
     DecisionTree._information_gain self y feature t = Ok g -> P idx t g) ->
  forall best best',
    DecisionTree.search_thresholds self y idx feature ths best = Ok best' ->
    (chosen P best -> chosen P best') /\
    (forall g, fgt g (snd best) = false -> fgt g (snd best') = false) /\
    (forall t g, In t ths ->
       DecisionTree._information_gain self y feature t = Ok g ->
       fgt g (snd best') = false).
Proof.
  induction ths as [|t ths IH]; intros HP best best' Hrun; simpl in Hrun.
  - injection Hrun as <-. repeat split; auto. intros t g [].
  - destruct (DecisionTree._information_gain self y feature t) as [gain|e] eqn:Hgain;
      simpl in Hrun; [|discriminate].
    destruct best as [[bf bt] bg].
    set (best1 := if fgt gain bg then (Some idx, Some t, gain) else (bf, bt, bg))
      in Hrun.
    assert (HP' : forall t0 g, In t0 ths ->
              DecisionTree._information_gain self y feature t0 = Ok g -> P idx t0 g).
    { intros t0 g Hin. apply HP. now right. }
    destruct (IH HP' best1 best' Hrun) as (Hch & Hmono & Hseen).
    assert (Hstep : forall g, fgt g bg = false -> fgt g (snd best1) = false).
    { intros g Hg. unfold best1. destruct (fgt gain bg) eqn:Hcmp; simpl.
      - now apply fgt_raise with bg.
      - exact Hg. }
    repeat split.
    + intros Hbest. apply Hch. unfold best1.
      destruct (fgt gain bg) eqn:Hcmp; [|exact Hbest].
      right. exists idx, t. repeat split.
      * apply HP; [now left | exact Hgain].
      * now apply fgt_above_neg_inf with bg.
    + intros g Hg. apply Hmono, Hstep, Hg.
    + intros t0 g [<- | Hin] Hg.
      * rewrite Hgain in Hg. injection Hg as <-. apply Hmono.
        unfold best1. destruct (fgt gain bg) eqn:Hcmp; simpl.
        -- apply fgt_irrefl.
        -- exact Hcmp.
      * now apply Hseen with t0.
Qed.

Lemma search_features_inv (fis : list nat) :
  forall best best',
    DecisionTree.search_features self X y fis best = Ok best' ->
    (forall P : nat -> Q -> float -> Prop,
       (forall f t g, In f fis -> candidate self X y f t g -> P f t g) ->
       chosen P best -> chosen P best') /\
    (forall g, fgt g (snd best) = false -> fgt g (snd best') = false) /\
    (forall f t g, In f fis -> candidate self X y f t g -> fgt g (snd best') = false).
Proof.
  induction fis as [|idx fis IH]; intros best best' Hrun; simpl in Hrun.
  - injection Hrun as <-. repeat split; auto. intros f t g [].
  - destruct (column X idx) as [feature|e] eqn:Hcol; simpl in Hrun; [|discriminate].
    destruct (DecisionTree.search_thresholds self y idx feature
                (np_unique Qcompare feature) best) as [best1|e] eqn:Hinner;
      simpl in Hrun; [|discriminate].
    destruct (IH best1 best' Hrun) as (Hch & Hmono & Hseen).
    assert (Hinv : forall P : nat -> Q -> float -> Prop,
              (forall t g, In t (np_unique Qcompare feature) ->
                 DecisionTree._information_gain self y feature t = Ok g ->
                 P idx t g) ->
              (chosen P best -> chosen P best1) /\
              (forall g, fgt g (snd best) = false -> fgt g (snd best1) = false) /\
              (forall t g, In t (np_unique Qcompare feature) ->
                 DecisionTree._information_gain self y feature t = Ok g ->
                 fgt g (snd best1) = false)).
    { intros P HP.
      exact (search_thresholds_inv idx feature P _ HP best best1 Hinner). }
    repeat split.
    + intros P HP Hbest.
      apply Hch; [intros f t g Hin; apply HP; now right|].
      apply (Hinv P); [|exact Hbest].
      intros t g Hin Hg. apply HP; [now left|].
      exists feature. auto.
    + intros g Hg. apply Hmono.
      destruct (Hinv (fun _ _ _ => True)) as (_ & Hm & _); auto.
    + intros f t g [<- | Hin] Hcand.
      * destruct Hcand as (col & Hc & Ht & Hg).
        rewrite Hcol in Hc. injection Hc as <-. apply Hmono.
        destruct (Hinv (fun _ _ _ => True)) as (_ & _ & Hs); [auto|].
        now apply Hs with t.
      * now apply Hseen with f t.
Qed.

End SplitSearch.

Lemma bind_Ok {A B : Type} (a : A) (k : A -> result B) : bind (Ok a) k = k a.
Proof. reflexivity. Qed.

Lemma take_total {A : Type} (l : list A) (idxs : list nat) :
  (forall i, In i idxs -> (i < length l)%nat) ->
  exists l', take l idxs = Ok l' /\ length l' = length idxs.
Proof.
  unfold take. induction idxs as [|i idxs IH]; intros Hin; simpl.
  - now exists [].
  - destruct (nth_error l i) as [a|] eqn:Ha.
    + destruct IH as (l' & Hl' & Hlen); [intros j Hj; apply Hin; now right|].
      rewrite Hl'. simpl. exists (a :: l'). simpl. now rewrite Hlen.
    + apply nth_error_None in Ha.
      specialize (Hin i (or_introl eq_refl)). lia.
Qed.

Lemma np_take_total (y : ndarray) (idxs : list nat) :
  (forall i, In i idxs -> (i < len y)%nat) ->
  exists y', np_take y idxs = Ok y' /\ len y' = length idxs.
Proof.
  intros Hin. destruct y as [l | l]; simpl in *;
    destruct (take_total l idxs Hin) as (l' & -> & Hlen); simpl;
    eexists; split; try reflexivity; exact Hlen.
Qed.

Lemma split_indices_in_range (feature : list Q) (t : Q) (i : nat) :
  In i (fst (DecisionTree._split feature t)) \/
  In i (snd (DecisionTree._split feature t)) ->
  (i < length feature)%nat.
Proof.
  intros [Hin | Hin].
  - apply In_split_left in Hin as (v & Hv & _).
    apply nth_error_Some. now rewrite Hv.
  - apply In_split_right in Hin as (v & Hv & _).
    apply nth_error_Some. now rewrite Hv.
Qed.

Section SplitSearchTotal.
Context `{Numpy}.
Variable self : DecisionTree.DecisionTreeClassifier.
Variable X : matrix.
Variable y : ndarray.

Lemma information_gain_total (feature : list Q) (t : Q) :
  length feature = len y ->
  exists g, DecisionTree._information_gain self y feature t = Ok g.
Proof.
  intros Hlen. unfold DecisionTree._information_gain.
  pose proof (split_indices_in_range feature t) as Hrange.
  destruct (DecisionTree._split feature t) as [left_idxs right_idxs].
  simpl in Hrange.
  destruct ((length left_idxs =? 0)%nat || (length right_idxs =? 0)%nat) eqn:Hside;
    [eexists; reflexivity|].
  apply orb_false_iff in Hside as [Hl Hr].
  destruct (np_take_total y left_idxs) as (y_l & -> & _).
  { intros i Hi. rewrite <- Hlen. apply Hrange. now left. }
  destruct (np_take_total y right_idxs) as (y_r & -> & _).
  { intros i Hi. rewrite <- Hlen. apply Hrange. now right. }
  rewrite !bind_Ok.
  destruct (len y) as [|n] eqn:Hn.
  - destruct left_idxs as [|i rest]; [discriminate|].
    specialize (Hrange i (or_introl (or_introl eq_refl))). lia.
  - simpl py_truediv. rewrite !bind_Ok. eexists; reflexivity.
Qed.

Lemma search_thresholds_total (idx : nat) (feature : list Q) (ths : list Q) :
  length feature = len y ->
  forall best, exists best',
    DecisionTree.search_thresholds self y idx feature ths best = Ok best'.
Proof.
  intros Hlen. induction ths as [|t ths IH]; intros best; simpl.
  - now exists best.
  - destruct (information_gain_total feature t Hlen) as (g & ->).
    rewrite bind_Ok. destruct best as [[bf bt] bg]. apply IH.
Qed.

Lemma search_features_total (fis : list nat) :
  length (rows X) = len y ->
  (forall f, In f fis -> (f < n_columns X)%nat) ->
  forall best, exists best',
    DecisionTree.search_features self X y fis best = Ok best'.
Proof.
  intros Hlen. induction fis as [|idx fis IH]; intros Hcols best; simpl.
  - now exists best.
  - unfold column.
    assert (Hidx : (idx <? n_columns X)%nat = true).
    { apply Nat.ltb_lt, Hcols. now left. }
    rewrite Hidx, bind_Ok.
    set (feature := map (fun r => nth idx r 0%Q) (rows X)).
    destruct (search_thresholds_total idx feature (np_unique Qcompare feature))
      with (best := best) as (best1 & ->).
    { unfold feature. now rewrite length_map. }
    rewrite bind_Ok. apply IH. intros f Hf. apply Hcols. now right.
Qed.

End SplitSearchTotal.

Lemma fgt_positive_best (g0 bg : float) :
  fgt g0 (Fl 0) = true -> fgt g0 bg = false -> fgt bg (Inf true) = true ->
  fgt bg (Fl 0) = true.
Proof.
  destruct g0 as [|[|]|x], bg as [|[|]|b]; simpl; try congruence.
  intros Hx Hb _. apply Qlt_bool_iff in Hx. apply Qlt_bool_iff.
  apply Qlt_le_trans with x; [exact Hx|].
  apply Qnot_lt_le. intros Hlt. apply Qlt_bool_iff in Hlt. congruence.
Qed.

Section SplitSearchResult.
Context `{Numpy}.

(** C3 (as the search is written): a split with an empty side scores
    exactly 0; and on a well-shaped node, as soon as one candidate pair has
    a strictly positive gain, [_best_criteria] returns a candidate pair of
    positive gain, neither side of which is empty. *)
Theorem split_search_avoids_empty_sides
    (self : DecisionTree.DecisionTreeClassifier) (X : matrix) (y : ndarray)
    (features_idxs : list nat) :
  (forall feature t,
     fst (DecisionTree._split feature t) = [] \/
     snd (DecisionTree._split feature t) = [] ->
     DecisionTree._information_gain self y feature t = Ok (Fl 0)) /\
  (length (rows X) = len y ->
   (forall f, In f features_idxs -> (f < n_columns X)%nat) ->
   forall f0 t0 g0,
     In f0 features_idxs -> candidate self X y f0 t0 g0 ->
     fgt g0 (Fl 0) = true ->
     exists f t col g,
       DecisionTree._best_criteria self X y features_idxs =
       Ok (Some f, Some t, g) /\
       In f features_idxs /\ column X f = Ok col /\
       In t (np_unique Qcompare col) /\
       DecisionTree._information_gain self y col t = Ok g /\
       fgt g (Fl 0) = true /\
       fst (DecisionTree._split col t) <> [] /\
       snd (DecisionTree._split col t) <> []).
Proof.
  split; [intros feature t; apply information_gain_empty_side|].
  intros Hlen Hcols f0 t0 g0 Hf0 Hcand Hpos.
  unfold DecisionTree._best_criteria.
  destruct (search_features_total self X y features_idxs Hlen Hcols
              (None, None, Inf true)) as (best & Hrun).
  destruct (search_features_inv self X y features_idxs _ _ Hrun)
    as (Hch & _ & Hseen).
  specialize (Hch (fun f t g => In f features_idxs /\ candidate self X y f t g)).
  specialize (Hseen f0 t0 g0 Hf0 Hcand).
  rewrite Hrun. destruct best as [[bf bt] bg]. simpl in Hseen.
  destruct Hch as [(_ & _ & ->) | (f & t & -> & -> & (Hf & Hc) & Hgt)].
  - auto.
  - now left.
  - destruct g0 as [|[|]|x]; simpl in Hpos, Hseen; congruence.
  - destruct Hc as (col & Hcol & Ht & Hg).
    assert (Hbest : fgt bg (Fl 0) = true) by now apply fgt_positive_best with g0.
    exists f, t, col, bg. repeat split; try assumption.
    + intros Hempty.
      rewrite (information_gain_empty_side self y col t (or_introl Hempty)) in Hg.
      injection Hg as <-. now rewrite fgt_irrefl in Hbest.
    + intros Hempty.
      rewrite (information_gain_empty_side self y col t (or_intror Hempty)) in Hg.
      injection Hg as <-. now rewrite fgt_irrefl in Hbest.
Qed.

End SplitSearchResult.

(** C3, counterexample: on [tied_X] the pair (feature 1, threshold 0) has
    two non-empty sides, yet the search returns (feature 0, threshold 5),
    whose right side is empty: it was seen first and nothing scores more
    than its gain 0. *)
Lemma best_criteria_selects_empty_side :
  (exists col,
     column tied_X 1 = Ok col /\ In 0%Q (np_unique Qcompare col) /\
     fst (DecisionTree._split col 0%Q) <> [] /\
     snd (DecisionTree._split col 0%Q) <> []) /\
  (exists col,
     @DecisionTree._best_criteria lcg_numpy tied_tree tied_X tied_y [0; 1]%nat =
     Ok (Some 0%nat, Some 5%Q, Fl 0) /\
     column tied_X 0 = Ok col /\
     snd (DecisionTree._split col 5%Q) = []).
Proof.
  split.
  - exists [0; 0; 1; 1]%Q. repeat split; try discriminate.
    vm_compute. now left.
  - exists [5; 5; 5; 5]%Q. repeat split.
Qed.

Lemma split_search_avoids_empty_sides_witness :
  exists f t col g,
    @DecisionTree._best_criteria lcg_numpy tied_tree ramp_X ramp_y [0%nat] =
    Ok (Some f, Some t, g) /\
    In f [0%nat] /\ column ramp_X f = Ok col /\
    In t (np_unique Qcompare col) /\
    @DecisionTree._information_gain lcg_numpy tied_tree ramp_y col t = Ok g /\
    fgt g (Fl 0) = true /\
    fst (DecisionTree._split col t) <> [] /\
    snd (DecisionTree._split col t) <> [].
Proof.
  destruct (@split_search_avoids_empty_sides lcg_numpy tied_tree ramp_X ramp_y
              [0%nat]) as [_ Hsearch].
  apply Hsearch with (f0 := 0%nat) (t0 := 1%Q) (g0 := Fl (1024 # 1024)).
  - reflexivity.
  - intros f [<- | []]. simpl. lia.
  - now left.
  - exists [0; 1; 2; 3]%Q. repeat split. vm_compute. auto.
  - reflexivity.
Defined.

(** ** The OOB vote accumulator *)

Lemma length_update {A : Type} (f : A -> A) (i : nat) (l : list A) :
  length (update f i l) = length l.
Proof.
  revert i. induction l as [|a l IH]; intros [|i]; simpl; auto.
Qed.

Lemma update_swap {A : Type} (f g : A -> A) (l : list A) :
  (forall a, f (g a) = g (f a)) ->
  forall i i', update f i (update g i' l) = update g i' (update f i l).
Proof.
  intros Hfg. induction l as [|a l IH]; intros [|i] [|i']; simpl;
    try reflexivity.
  - now rewrite Hfg.
  - now rewrite IH.
Qed.

Lemma widths_update (f : list nat -> list nat) (i : nat) (v : list (list nat)) :
  (forall row, length (f row) = length row) ->
  map (@length nat) (update f i v) = map (@length nat) v.
Proof.
  intros Hf. revert i. induction v as [|row v IH]; intros [|i]; simpl;
    try reflexivity.
  - now rewrite Hf.
  - now rewrite IH.
Qed.

Lemma np_index_Raise (n : nat) (i : Z) (e : exn) :
  np_index n i = Raise e -> e = IndexError.
Proof.
  unfold np_index.
  destruct ((0 <=? i) && (i <? Z.of_nat n)); [discriminate|].
  destruct ((- Z.of_nat n <=? i) && (i <? 0)); [discriminate|].
  now intros [= <-].
Qed.

Lemma vote_by_cell (v : list (list nat)) (idx : nat) (prediction : Z) :
  RandomForest.vote v idx prediction =
  match vote_cell v idx prediction with
  | Some j => Ok (update (update S j) idx v)
  | None => Raise IndexError
  end.
Proof.
  unfold RandomForest.vote, vote_cell. rewrite nth_error_map.
  destruct (nth_error v idx) as [row|]; simpl; [|reflexivity].
  destruct (np_index (length row) prediction) as [j|e] eqn:Hj; simpl;
    [reflexivity|].
  now rewrite (np_index_Raise _ _ _ Hj).
Qed.

Lemma vote_cell_update (v : list (list nat)) (i j : nat) (idx : nat)
    (prediction : Z) :
  vote_cell (update (update S j) i v) idx prediction =
  vote_cell v idx prediction.
Proof.
  unfold vote_cell. rewrite widths_update; [reflexivity|].
  intros row. apply length_update.
Qed.

Lemma vote_swap (v : list (list nat)) (i i' : nat) (p p' : Z) :
  (v1 <- RandomForest.vote v i p ;; RandomForest.vote v1 i' p') =
  (v1 <- RandomForest.vote v i' p' ;; RandomForest.vote v1 i p).
Proof.
  rewrite (vote_by_cell v i p), (vote_by_cell v i' p').
  destruct (vote_cell v i p) as [j|] eqn:Hj,
           (vote_cell v i' p') as [j'|] eqn:Hj'; simpl;
    rewrite ?vote_by_cell, ?vote_cell_update, ?Hj, ?Hj'; try reflexivity.
  f_equal. apply update_swap. intros row. apply update_swap. reflexivity.
Qed.

Lemma record_votes_app (pairs pairs' : list (nat * Z)) :
  forall v,
    RandomForest.record_votes v (pairs ++ pairs') =
    (v1 <- RandomForest.record_votes v pairs ;;
     RandomForest.record_votes v1 pairs').
Proof.
  induction pairs as [|[idx prediction] pairs IH]; intros v; simpl;
    [reflexivity|].
  destruct (RandomForest.vote v idx prediction) as [v1|e]; simpl;
    [apply IH | reflexivity].
Qed.

Lemma bind_assoc {A B C : Type} (c : result A) (f : A -> result B)
    (g : B -> result C) :
  bind (bind c f) g = bind c (fun a => bind (f a) g).
Proof. now destruct c. Qed.

Lemma record_votes_perm (pairs pairs' : list (nat * Z)) :
  Permutation pairs pairs' ->
  forall v, RandomForest.record_votes v pairs = RandomForest.record_votes v pairs'.
Proof.
  induction 1 as [| [idx prediction] l l' _ IH
                  | [i p] [i' p'] l | l l' l'' _ IH1 _ IH2]; intros v.
  - reflexivity.
  - simpl. destruct (RandomForest.vote v idx prediction); simpl;
      [apply IH | reflexivity].
  - transitivity
      (v2 <- (v1 <- RandomForest.vote v i' p' ;; RandomForest.vote v1 i p) ;;
       RandomForest.record_votes v2 l).
    + simpl. now rewrite bind_assoc.
    + rewrite vote_swap. simpl. now rewrite bind_assoc.
  - now rewrite IH1.
Qed.

Section Merge.
Context `{Numpy}.

Lemma merge_results_votes (results : list RandomForest.round) :
  forall self,
    (s <- RandomForest.merge_results results self ;; Ok (RandomForest.oob_votes s)) =
    RandomForest.record_votes (RandomForest.oob_votes self)
      (flat_map round_pairs results).
Proof.
  induction results as [|[[tree oob_pred] oob_indices] results IH];
    intros self; [reflexivity|].
  simpl flat_map. rewrite record_votes_app. simpl.
  destruct (RandomForest.record_votes (RandomForest.oob_votes self)
              (combine oob_indices oob_pred)) as [votes|e];
    simpl; [|reflexivity].
  now rewrite IH.
Qed.

Lemma merge_results_trees (results : list RandomForest.round) :
  forall self s,
    RandomForest.merge_results results self = Ok s ->
    RandomForest.trees s =
    RandomForest.trees self ++ map round_tree results.
Proof.
  induction results as [|[[tree oob_pred] oob_indices] results IH];
    intros self s Hs; simpl in Hs.
  - injection Hs as <-. now rewrite app_nil_r.
  - destruct (RandomForest.record_votes (RandomForest.oob_votes self)
                (combine oob_indices oob_pred)) as [votes|e];
      simpl in Hs; [|discriminate].
    rewrite (IH _ _ Hs). simpl. now rewrite <- app_assoc.
Qed.

(** C9: merging the same rounds in another order leaves every cell of the
    vote accumulator as it is (and fails in one order exactly when it fails
    in the other), while the trees are listed in the order of the merge. *)
Theorem merge_order_votes_and_trees (results results' : list RandomForest.round)
    (self : RandomForest.RandomForestClassifier) :
  Permutation results results' ->
  (s <- RandomForest.merge_results results self ;; Ok (RandomForest.oob_votes s)) =
  (s <- RandomForest.merge_results results' self ;; Ok (RandomForest.oob_votes s)) /\
  (forall s, RandomForest.merge_results results self = Ok s ->
     RandomForest.trees s = RandomForest.trees self ++ map round_tree results) /\
  (forall s', RandomForest.merge_results results' self = Ok s' ->
     RandomForest.trees s' = RandomForest.trees self ++ map round_tree results').
Proof.
  intros Hperm. split; [|split; intros s Hs; now apply merge_results_trees].
  rewrite !merge_results_votes. apply record_votes_perm.
  now apply Permutation_flat_map.
Qed.

End Merge.

Lemma merge_order_votes_and_trees_witness :
  (s <- RandomForest.merge_results [round_a; round_b] empty_forest ;;
   Ok (RandomForest.oob_votes s)) =
  (s <- RandomForest.merge_results [round_b; round_a] empty_forest ;;
   Ok (RandomForest.oob_votes s)) /\
  (forall s, RandomForest.merge_results [round_a; round_b] empty_forest = Ok s ->
     RandomForest.trees s =
     RandomForest.trees empty_forest ++ map round_tree [round_a; round_b]) /\
  (forall s', RandomForest.merge_results [round_b; round_a] empty_forest = Ok s' ->
     RandomForest.trees s' =
     RandomForest.trees empty_forest ++ map round_tree [round_b; round_a]).
Proof.
  apply (@merge_order_votes_and_trees lcg_numpy [round_a; round_b]
           [round_b; round_a] empty_forest).
  apply perm_swap.
Defined.

(** ** Results of [mapM] *)

Lemma mapM_Ok_Forall2 {A B : Type} (f : A -> result B) (l : list A) :
  forall bs, mapM f l = Ok bs -> Forall2 (fun a b => f a = Ok b) l bs.
Proof.
  induction l as [|a l IH]; intros bs Hbs; simpl in Hbs.
  - injection Hbs as <-. constructor.
  - destruct (f a) as [b|e] eqn:Hb; simpl in Hbs; [|discriminate].
    destruct (mapM f l) as [bs'|e]; simpl in Hbs; [|discriminate].
    injection Hbs as <-. constructor; [exact Hb | now apply IH].
Qed.

Lemma Forall2_mapM_Ok {A B : Type} (f : A -> result B) (l : list A)
    (bs : list B) :
  Forall2 (fun a b => f a = Ok b) l bs -> mapM f l = Ok bs.
Proof.
  induction 1 as [|a b l bs Hb _ IH]; simpl; [reflexivity|].
  now rewrite Hb, IH.
Qed.

Lemma mapM_total {A B : Type} (f : A -> result B) (l : list A) :
  (forall a, In a l -> exists b, f a = Ok b) -> exists bs, mapM f l = Ok bs.
Proof.
  induction l as [|a l IH]; intros Hall; simpl.
  - now exists [].
  - destruct (Hall a (or_introl eq_refl)) as (b & ->).
    destruct IH as (bs & ->); [intros a' Ha'; apply Hall; now right|].
    now exists (b :: bs).
Qed.

Lemma Forall2_nth_error {A B : Type} (R : A -> B -> Prop) (l : list A)
    (bs : list B) :
  Forall2 R l bs ->
  forall i a, nth_error l i = Some a ->
              exists b, nth_error bs i = Some b /\ R a b.
Proof.
  induction 1 as [|a0 b0 l bs Hab _ IH]; intros [|i] a Ha; simpl in *;
    try discriminate.
  - injection Ha as <-. now exists b0.
  - now apply IH.
Qed.

Lemma Forall2_map_r {A B C : Type} (R : A -> B -> Prop) (R' : A -> C -> Prop)
    (g : B -> C) (l : list A) (bs : list B) :
  (forall a b, R a b -> R' a (g b)) ->
  Forall2 R l bs -> Forall2 R' l (map g bs).
Proof.
  intros Himp. induction 1; simpl; constructor; auto.
Qed.

(** ** Ensemble prediction *)

Section ForestPredict.
Context `{Numpy}.

Lemma int_array_nth_error (vals : list value) (ps : list Z) :
  int_array vals = Ok ps ->
  length ps = length vals /\
  forall i val, nth_error vals i = Some val ->
                exists v, nth_error ps i = Some v /\ val = VInt v.
Proof.
  intros Hps. apply mapM_Ok_Forall2 in Hps. split.
  - symmetry. exact (Forall2_length Hps).
  - intros i val Hval.
    destruct (Forall2_nth_error _ _ _ Hps i val Hval) as (v & Hv & Hconv).
    exists v. split; [exact Hv|].
    destruct val; try discriminate. now injection Hconv as ->.
Qed.

Lemma tree_predict_rows (tree : DecisionTree.DecisionTreeClassifier)
    (X : matrix) (ps : list Z) :
  (p <- DecisionTree.predict tree X ;; int_array p) = Ok ps ->
  length ps = length (rows X) /\
  forall i x, nth_error (rows X) i = Some x ->
              exists v, nth_error ps i = Some v /\ tree_predicts tree x v.
Proof.
  unfold DecisionTree.predict. intros Hps.
  destruct (DecisionTree.root tree) as [node|] eqn:Hroot; [|discriminate].
  destruct (mapM (fun x => DecisionTree._traverse_tree x node) (rows X))
    as [vals|e] eqn:Hvals; [|discriminate].
  rewrite bind_Ok in Hps. apply mapM_Ok_Forall2 in Hvals.
  destruct (int_array_nth_error vals ps Hps) as [Hlen Hnth]. split.
  - rewrite Hlen. symmetry. exact (Forall2_length Hvals).
  - intros i x Hx.
    destruct (Forall2_nth_error _ _ _ Hvals i x Hx) as (val & Hval & Hrun).
    destruct (Hnth i val Hval) as (v & Hv & ->).
    exists v. split; [exact Hv|]. exists node. now rewrite Hroot.
Qed.

Lemma tree_predict_single_row (tree : DecisionTree.DecisionTreeClassifier)
    (X : matrix) (x : list Q) (v : Z) :
  rows X = [x] -> tree_predicts tree x v ->
  (p <- DecisionTree.predict tree X ;; int_array p) = Ok [v].
Proof.
  intros Hrows (node & Hroot & Hrun). unfold DecisionTree.predict.
  rewrite Hroot, Hrows. simpl. rewrite Hrun. reflexivity.
Qed.

Lemma nth_error_map_seq {A : Type} (g : nat -> A) (n i : nat) :
  (i < n)%nat -> nth_error (map g (seq 0 n)) i = Some (g i).
Proof.
  intros Hi. rewrite nth_error_map.
  rewrite (nth_error_nth' (seq 0 n) 0%nat) by now rewrite length_seq.
  now rewrite seq_nth.
Qed.

(** C5: the ensemble returns one label per input row, in row order; the
    label of a row is the most frequent of the trees' predictions for that
    row, the lowest one on a tie.  The call succeeds as soon as every tree
    predicts integer labels on [X], and three trees that predict 0, 1 and 1
    for a single sample give the output 1. *)
Theorem forest_predict_is_mode (self : RandomForest.RandomForestClassifier)
    (X : matrix) :
  RandomForest.trees self <> [] ->
  ((forall tree, In tree (RandomForest.trees self) ->
      exists ps, (p <- DecisionTree.predict tree X ;; int_array p) = Ok ps) ->
   exists out, RandomForest.predict self X = Ok out) /\
  (forall out,
     RandomForest.predict self X = Ok out ->
     length out = length (rows X) /\
     forall i x, nth_error (rows X) i = Some x ->
       exists votes m,
         Forall2 (fun tree v => tree_predicts tree x v)
                 (RandomForest.trees self) votes /\
         nth_error out i = Some m /\
         is_lowest_mode votes m) /\
  (forall t0 t1 t2 x,
     RandomForest.trees self = [t0; t1; t2] -> rows X = [x] ->
     tree_predicts t0 x 0 -> tree_predicts t1 x 1 -> tree_predicts t2 x 1 ->
     RandomForest.predict self X = Ok [1]).
Proof.
  intros Htrees. unfold RandomForest.predict. split; [|split].
  - intros Hall. destruct (mapM_total _ _ Hall) as (preds & ->).
    rewrite bind_Ok. now eexists.
  - intros out Hout.
    destruct (mapM _ (RandomForest.trees self)) as [preds|e] eqn:Hpreds;
      [|discriminate].
    rewrite bind_Ok in Hout. injection Hout as <-.
    apply mapM_Ok_Forall2 in Hpreds.
    assert (Hwidth : exists r rest, preds = r :: rest /\
                                    length r = length (rows X)).
    { destruct Hpreds as [|tree r trees preds Hr Hrest]; [congruence|].
      exists r, preds. split; [reflexivity|].
      exact (proj1 (tree_predict_rows tree X r Hr)). }
    destruct Hwidth as (r & rest & Hshape & Hwidth). split.
    + rewrite Hshape. simpl. now rewrite length_map, length_seq.
    + intros i x Hx.
      exists (map (fun row => nth i row 0) preds).
      exists (mode (map (fun row => nth i row 0) preds)).
      split; [|split].
      * apply Forall2_map_r with (2 := Hpreds). intros tree p Hp.
        destruct (proj2 (tree_predict_rows tree X p Hp) i x Hx)
          as (v & Hv & Hrun).
        now rewrite (nth_error_nth _ _ 0 Hv).
      * rewrite Hshape. unfold stats_mode.
        apply (nth_error_map_seq
                 (fun j => mode (map (fun row => nth j row 0) (r :: rest)))).
        rewrite Hwidth. apply nth_error_Some. now rewrite Hx.
      * apply mode_is_lowest_mode. now rewrite Hshape.
  - intros t0 t1 t2 x -> Hrows H0 H1 H2. simpl.
    rewrite (tree_predict_single_row t0 X x 0 Hrows H0),
            (tree_predict_single_row t1 X x 1 Hrows H1),
            (tree_predict_single_row t2 X x 1 Hrows H2).
    reflexivity.
Qed.

End ForestPredict.

Lemma forest_predict_is_mode_witness :
  @RandomForest.predict lcg_numpy three_trees one_row = Ok [1].
Proof.
  assert (Hne : RandomForest.trees three_trees <> []) by discriminate.
  destruct (@forest_predict_is_mode lcg_numpy three_trees one_row Hne)
    as (_ & _ & Hexample).
  apply (Hexample label_zero_tree label_one_tree label_one_tree [7]%Q);
    try reflexivity; eexists; split; reflexivity.
Defined.

(** ** The OOB score *)

Lemma find_seq_first (p : nat -> bool) (r : nat) :
  p r = true ->
  forall n s, (s <= r)%nat -> (r < s + n)%nat ->
    (forall j, (s <= j)%nat -> (j < r)%nat -> p j = false) ->
    find p (seq s n) = Some r.
Proof.
  intros Hr. induction n as [|n IH]; intros s Hle Hlt Hbefore; [lia|].
  simpl. destruct (Nat.eq_dec s r) as [-> | Hne].
  - now rewrite Hr.
  - rewrite (Hbefore s) by lia. apply IH; [lia | lia |].
    intros j Hj Hjr. apply Hbefore; lia.
Qed.

Lemma most_voted_first_max (row : list nat) (r : nat) :
  is_first_max row r -> most_voted row = Some r.
Proof.
  intros (Hlt & Hge & Hfirst). unfold most_voted.
  apply find_seq_first; [| lia | lia |].
  - apply forallb_forall. intros c Hc. apply Nat.leb_le.
    apply (In_nth _ _ 0%nat) in Hc as (k & _ & <-). apply Hge.
  - intros j _ Hj. apply not_true_is_false. intros Hall.
    rewrite forallb_forall in Hall.
    specialize (Hall (nth r row 0%nat) (nth_In _ _ Hlt)).
    apply Nat.leb_le in Hall. specialize (Hfirst j Hj). lia.
Qed.

Lemma np_compress_combine {A B : Type} (f : A -> bool) (l : list A) :
  forall (l' : list B), length l' = length l ->
    np_compress (map f l) l = Ok (map fst (filter (fun ab => f (fst ab)) (combine l l'))) /\
    np_compress (map f l) l' = Ok (map snd (filter (fun ab => f (fst ab)) (combine l l'))).
Proof.
  induction l as [|a l IH]; intros [|b l'] Hlen; simpl in *; try discriminate.
  - now split.
  - destruct (IH l') as [-> ->]; [lia|]. simpl.
    destruct (f a); simpl; now split.
Qed.

Lemma existsb_filter_nil {A B : Type} (f : A -> bool) (l : list A) :
  forall (l' : list B), length l' = length l ->
    existsb (fun b => b) (map f l) = false <->
    filter (fun ab => f (fst ab)) (combine l l') = [].
Proof.
  induction l as [|a l IH]; intros [|b l'] Hlen; simpl in *; try discriminate.
  - tauto.
  - destruct (f a); simpl; [split; discriminate|].
    apply IH. lia.
Qed.

Lemma list_sum_positive_nonempty (row : list nat) :
  received_vote row = true -> row <> [].
Proof. intros Hv ->. discriminate. Qed.

Lemma oob_predictions_right (scored : list (list nat * Z)) :
  (forall rl, In rl scored -> received_vote (fst rl) = true) ->
  exists preds,
    mapM np_argmax (map fst scored) = Ok preds /\
    map (fun pz => Z.of_nat (fst pz) =? snd pz) (combine preds (map snd scored)) =
    map vote_is_right scored.
Proof.
  induction scored as [|[row z] scored IH]; intros Hvoted; simpl.
  - now exists [].
  - destruct (np_argmax_first_max row) as (r & Hr & Hmax).
    { apply list_sum_positive_nonempty. exact (Hvoted (row, z) (or_introl eq_refl)). }
    destruct IH as (preds & Hpreds & Hhits).
    { intros rl Hin. apply Hvoted. now right. }
    exists (r :: preds). rewrite Hr, Hpreds. simpl. split; [reflexivity|].
    rewrite Hhits. unfold vote_is_right at 2. simpl.
    now rewrite (most_voted_first_max row r Hmax).
Qed.

Lemma sum_Q_hits (bs : list bool) :
  (sum_Q (map (fun b : bool => if b then 1 else 0) bs) ==
   inject_Z (Z.of_nat (length (filter (fun b => b) bs))))%Q.
Proof.
  induction bs as [|b bs IH]; simpl; [reflexivity|].
  unfold sum_Q in IH. rewrite IH. destruct b; simpl length.
  - rewrite Nat2Z.inj_succ. unfold Z.succ. rewrite inject_Z_plus. ring.
  - ring.
Qed.

Lemma np_mean_hits (bs : list bool) :
  bs <> [] ->
  exists q,
    np_mean (map RandomForest.bool_float bs) = Fl q /\
    (q == inject_Z (Z.of_nat (length (filter (fun b => b) bs))) /
          inject_Z (Z.of_nat (length bs)))%Q.
Proof.
  intros Hne.
  assert (Hmap : map RandomForest.bool_float bs =
                 map Fl (map (fun b : bool => if b then 1%Q else 0%Q) bs)).
  { rewrite map_map. apply map_ext. now intros []. }
  rewrite Hmap.
  destruct (np_mean_arithmetic (map (fun b : bool => if b then 1%Q else 0%Q) bs))
    as (q & Hq & Heq).
  { destruct bs; [congruence | discriminate]. }
  exists q. split; [exact Hq|]. rewrite Heq. unfold arithmetic_mean.
  now rewrite sum_Q_hits, length_map.
Qed.

Lemma length_filter_map {A : Type} (f : A -> bool) (l : list A) :
  length (filter (fun b => b) (map f l)) = length (filter f l).
Proof.
  induction l as [|a l IH]; simpl; [reflexivity|].
  destruct (f a); simpl; now rewrite IH.
Qed.

Section OobScore.
Context `{Numpy}.

Lemma calculate_oob_score_accuracy (self : RandomForest.RandomForestClassifier)
    (labels : list Z) :
  length labels = length (RandomForest.oob_votes self) ->
  match oob_accuracy (RandomForest.oob_votes self) labels with
  | None => RandomForest._calculate_oob_score self (IntArray labels) = Ok self
  | Some acc =>
      exists q,
        RandomForest._calculate_oob_score self (IntArray labels) =
        Ok (RandomForest.set_oob_score_ self (Some (Fl q))) /\ (q == acc)%Q
  end.
Proof.
  intros Hlen. unfold RandomForest._calculate_oob_score, oob_accuracy.
  set (votes := RandomForest.oob_votes self) in *.
  change (map (fun row => (0 <? list_sum row)%nat) votes)
    with (map received_vote votes).
  pose proof (existsb_filter_nil received_vote votes labels Hlen) as Hnone.
  destruct (np_compress_combine received_vote votes labels Hlen) as [Hrows Hlabels].
  assert (Hvoted : forall rl,
            In rl (filter (fun rl => received_vote (fst rl)) (combine votes labels)) ->
            received_vote (fst rl) = true).
  { intros rl Hin. now apply filter_In in Hin. }
  destruct (filter (fun rl => received_vote (fst rl)) (combine votes labels))
    as [|rl scored] eqn:Hscored.
  - now rewrite (proj2 Hnone eq_refl).
  - destruct (existsb (fun b => b) (map received_vote votes)) eqn:Hany.
    2:{ discriminate (proj1 Hnone eq_refl). }
    rewrite Hrows, bind_Ok.
    destruct (oob_predictions_right (rl :: scored) Hvoted) as (preds & -> & Hhits).
    rewrite bind_Ok. unfold RandomForest.np_mask. rewrite Hlabels, !bind_Ok.
    unfold RandomForest.np_equal. rewrite Hhits.
    destruct (np_mean_hits (map vote_is_right (rl :: scored))) as (q & -> & Heq);
      [discriminate|].
    exists q. split; [reflexivity|].
    now rewrite Heq, length_filter_map, length_map.
Qed.

Lemma calculate_oob_score_frame (self s : RandomForest.RandomForestClassifier)
    (y : ndarray) :
  RandomForest._calculate_oob_score self y = Ok s ->
  RandomForest.oob_votes s = RandomForest.oob_votes self /\
  RandomForest.trees s = RandomForest.trees self /\
  RandomForest.n_estimators s = RandomForest.n_estimators self.
Proof.
  unfold RandomForest._calculate_oob_score.
  destruct (existsb _ _).
  - destruct (np_compress _ _); [|discriminate]. rewrite bind_Ok.
    destruct (mapM _ _); [|discriminate]. rewrite bind_Ok.
    destruct (RandomForest.np_mask _ _); [|discriminate]. rewrite bind_Ok.
    intros [= <-]. now repeat split.
  - intros [= <-]. now repeat split.
Qed.

Lemma record_votes_length (pairs : list (nat * Z)) :
  forall v v', RandomForest.record_votes v pairs = Ok v' -> length v' = length v.
Proof.
  induction pairs as [|[idx prediction] pairs IH]; intros v v' Hv; simpl in Hv.
  - now injection Hv as <-.
  - rewrite vote_by_cell in Hv.
    destruct (vote_cell v idx prediction); [|discriminate].
    rewrite bind_Ok in Hv. rewrite (IH _ _ Hv). apply length_update.
Qed.

Lemma merge_results_frame (results : list RandomForest.round) :
  forall self s,
    RandomForest.merge_results results self = Ok s ->
    RandomForest.oob_score_ s = RandomForest.oob_score_ self /\
    RandomForest.n_estimators s = RandomForest.n_estimators self /\
    length (RandomForest.oob_votes s) = length (RandomForest.oob_votes self).
Proof.
  induction results as [|[[tree oob_pred] oob_indices] results IH];
    intros self s Hs; simpl in Hs.
  - injection Hs as <-. now repeat split.
  - destruct (RandomForest.record_votes (RandomForest.oob_votes self)
                (combine oob_indices oob_pred)) as [votes|e] eqn:Hvotes;
      simpl in Hs; [|discriminate].
    destruct (IH _ _ Hs) as (Hscore & Hn & Hlen). simpl in *.
    repeat split; try assumption.
    rewrite Hlen. exact (record_votes_length _ _ _ Hvotes).
Qed.

Lemma train_rounds_frame (fuel : nat) (X : matrix) (y : ndarray)
    (tree_idxs : list nat) :
  forall self rs s,
    RandomForest.train_rounds fuel self X y tree_idxs = Ok (rs, s) ->
    length rs = length tree_idxs /\
    RandomForest.oob_score_ s = RandomForest.oob_score_ self /\
    RandomForest.n_estimators s = RandomForest.n_estimators self /\
    RandomForest.trees s = RandomForest.trees self /\
    RandomForest.oob_votes s = RandomForest.oob_votes self.
Proof.
  induction tree_idxs as [|i tree_idxs IH]; intros self rs s Hrun;
    simpl in Hrun.
  - injection Hrun as <- <-. now repeat split.
  - unfold RandomForest._bootstrap_sample in Hrun.
    destruct (shape X) as [n_samples n_features].
    destruct (choice (RandomForest.random self) n_samples n_samples true)
      as [[bootstrap_indices r]|e]; [|discriminate].
    rewrite !bind_Ok in Hrun.
    destruct (RandomForest._train_tree _ _ _ _ _ _ _) as [round|e];
      [|discriminate].
    rewrite bind_Ok in Hrun.
    destruct (RandomForest.train_rounds _ _ _ _ _) as [[rs' s']|e] eqn:Hrest;
      [|discriminate].
    rewrite bind_Ok in Hrun. injection Hrun as <- <-.
    destruct (IH _ _ _ Hrest) as (Hlen & Hscore & Hn & Htrees & Hvotes).
    simpl in *. repeat split; try assumption. now rewrite Hlen.
Qed.

(** What [fit] does, step by step. *)
Lemma fit_steps (fuel : nat) (self self' : RandomForest.RandomForestClassifier)
    (X : matrix) (y : ndarray) :
  RandomForest.fit fuel self X y = Ok self' ->
  exists votes results trained merged,
    RandomForest.fresh_votes (length (rows X)) y = Ok votes /\
    RandomForest.train_rounds fuel
      (RandomForest.set_oob_votes
         (RandomForest.set_max_features self
            (RandomForest.max_features_or_sqrt (RandomForest.max_features self)
               (n_columns X)))
         votes)
      X y (seq 0 (RandomForest.n_estimators self)) = Ok (results, trained) /\
    RandomForest.merge_results results trained = Ok merged /\
    RandomForest._calculate_oob_score merged y = Ok self'.
Proof.
  unfold RandomForest.fit, shape. intros Hfit.
  destruct (RandomForest.fresh_votes (length (rows X)) y) as [votes|e];
    [|discriminate].
  rewrite bind_Ok in Hfit.
  destruct (RandomForest.train_rounds _ _ _ _ _) as [[results trained]|e]
    eqn:Htrain; [|discriminate].
  rewrite bind_Ok in Hfit.
  destruct (RandomForest.merge_results results trained) as [merged|e] eqn:Hmerge;
    [|discriminate].
  rewrite bind_Ok in Hfit.
  exists votes, results, trained, merged.
  split; [reflexivity|]. split; [exact Htrain|]. split; [exact Hmerge | exact Hfit].
Qed.

Lemma fresh_votes_length (n : nat) (y : ndarray) (votes : list (list nat)) :
  RandomForest.fresh_votes n y = Ok votes -> length votes = n.
Proof.
  unfold RandomForest.fresh_votes. destruct y as [l | l]; [|discriminate].
  destruct (np_max l) as [top|e]; [|discriminate]. rewrite bind_Ok.
  destruct (top + 1 <? 0); [discriminate|].
  intros [= <-]. apply repeat_length.
Qed.

(** C4: [_calculate_oob_score] returns normally; when some sample has a
    vote it stores the share, among the samples with at least one vote, of
    those whose most voted label (the lowest one on a tie) is the true
    label, and when no sample has a vote it stores nothing.  After [fit]
    the score is therefore that share over the votes of all rounds, or the
    attribute is left as it was ([None] on a new forest). *)
Theorem oob_score_is_accuracy_over_voted :
  (forall (self : RandomForest.RandomForestClassifier) (labels : list Z),
     length labels = length (RandomForest.oob_votes self) ->
     match oob_accuracy (RandomForest.oob_votes self) labels with
     | None =>
         RandomForest._calculate_oob_score self (IntArray labels) = Ok self
     | Some acc =>
         exists q,
           RandomForest._calculate_oob_score self (IntArray labels) =
           Ok (RandomForest.set_oob_score_ self (Some (Fl q))) /\ (q == acc)%Q
     end) /\
  (forall (fuel : nat) (self self' : RandomForest.RandomForestClassifier)
          (X : matrix) (labels : list Z),
     length labels = length (rows X) ->
     RandomForest.fit fuel self X (IntArray labels) = Ok self' ->
     match oob_accuracy (RandomForest.oob_votes self') labels with
     | None => RandomForest.oob_score_ self' = RandomForest.oob_score_ self
     | Some acc =>
         exists q,
           RandomForest.oob_score_ self' = Some (Fl q) /\ (q == acc)%Q
     end).
Proof.
  split; [exact calculate_oob_score_accuracy|].
  intros fuel self self' X labels Hlen Hfit.
  destruct (fit_steps fuel self self' X _ Hfit)
    as (votes & results & trained & merged & Hfresh & Htrain & Hmerge & Hscore).
  destruct (train_rounds_frame _ _ _ _ _ _ _ Htrain)
    as (_ & Hs1 & _ & _ & Hv1).
  destruct (merge_results_frame _ _ _ Hmerge) as (Hs2 & _ & Hv2).
  destruct (calculate_oob_score_frame _ _ _ Hscore) as (Hv3 & _ & _).
  assert (Hrows : length labels = length (RandomForest.oob_votes merged)).
  { rewrite Hv2, Hv1. simpl. rewrite (fresh_votes_length _ _ _ Hfresh).
    exact Hlen. }
  pose proof (calculate_oob_score_accuracy merged labels Hrows) as Hacc.
  rewrite Hv3.
  destruct (oob_accuracy (RandomForest.oob_votes merged) labels) as [acc|].
  - destruct Hacc as (q & Hq & Heq). exists q. split; [|exact Heq].
    rewrite Hq in Hscore. now injection Hscore as <-.
  - rewrite Hacc in Hscore. injection Hscore as <-.
    rewrite Hs2, Hs1. reflexivity.
Qed.

End OobScore.

Lemma oob_score_is_accuracy_over_voted_witness :
  (oob_accuracy (RandomForest.oob_votes voted_forest) [1; 1; 1] = Some (1 # 2) /\
   exists q,
     @RandomForest._calculate_oob_score lcg_numpy voted_forest (IntArray [1; 1; 1]) =
     Ok (RandomForest.set_oob_score_ voted_forest (Some (Fl q))) /\
     (q == 1 # 2)%Q) /\
  (exists self' q,
     @RandomForest.fit lcg_numpy 20 new_forest six_X six_y = Ok self' /\
     RandomForest.oob_score_ self' = Some (Fl q) /\ (q == 1)%Q).
Proof.
  split.
  - split; [reflexivity|].
    exact (proj1 (@oob_score_is_accuracy_over_voted lcg_numpy) voted_forest
             [1; 1; 1] eq_refl).
  - assert (Hvotes :
      match @RandomForest.fit lcg_numpy 20 new_forest six_X six_y with
      | Ok s => Some (RandomForest.oob_votes s)
      | Raise _ => None
      end = Some [[1; 0]; [0; 0]; [0; 0]; [0; 0]; [2; 0]; [0; 1]]%nat)
      by (vm_compute; reflexivity).
    destruct (@RandomForest.fit lcg_numpy 20 new_forest six_X six_y)
      as [self'|e] eqn:Hfit; [|discriminate Hvotes].
    injection Hvotes as Hvotes.
    pose proof (proj2 (@oob_score_is_accuracy_over_voted lcg_numpy) 20%nat
                  new_forest self' six_X [0; 0; 1; 1; 0; 1] eq_refl Hfit) as Hacc.
    rewrite Hvotes in Hacc.
    change (oob_accuracy [[1; 0]; [0; 0]; [0; 0]; [0; 0]; [2; 0]; [0; 1]]%nat
              [0; 0; 1; 1; 0; 1])
      with (Some (inject_Z 3 / inject_Z 3)%Q) in Hacc.
    destruct Hacc as (q & Hq & Heq).
    exists self', q. split; [reflexivity|]. split; [exact Hq|].
    rewrite Heq. reflexivity.
Defined.

(** ** Fitting a forest again *)

Section Refit.
Context `{Numpy}.

Lemma fit_appends_trees (fuel : nat)
    (self self' : RandomForest.RandomForestClassifier) (X : matrix) (y : ndarray) :
  RandomForest.fit fuel self X y = Ok self' ->
  RandomForest.n_estimators self' = RandomForest.n_estimators self /\
  exists new,
    RandomForest.trees self' = RandomForest.trees self ++ new /\
    length new = RandomForest.n_estimators self.
Proof.
  intros Hfit.
  destruct (fit_steps fuel self self' X y Hfit)
    as (votes & results & trained & merged & _ & Htrain & Hmerge & Hscore).
  destruct (train_rounds_frame _ _ _ _ _ _ _ Htrain)
    as (Hlen & _ & Hn1 & Ht1 & _).
  destruct (merge_results_frame _ _ _ Hmerge) as (_ & Hn2 & _).
  pose proof (merge_results_trees _ _ _ Hmerge) as Ht2.
  destruct (calculate_oob_score_frame _ _ _ Hscore) as (_ & Ht3 & Hn3).
  split.
  - rewrite Hn3, Hn2, Hn1. reflexivity.
  - exists (map round_tree results). split.
    + rewrite Ht3, Ht2, Ht1. reflexivity.
    + rewrite length_map.
      etransitivity; [exact Hlen | apply length_seq].
Qed.

Lemma fit_all_trees (fuel : nat) (datasets : list (matrix * ndarray)) :
  forall self self',
    fit_all fuel self datasets = Ok self' ->
    RandomForest.n_estimators self' = RandomForest.n_estimators self /\
    length (RandomForest.trees self') =
    (length (RandomForest.trees self) +
     length datasets * RandomForest.n_estimators self)%nat.
Proof.
  induction datasets as [|[X y] datasets IH]; intros self self' Hall;
    simpl in Hall.
  - injection Hall as <-. split; [reflexivity | simpl; lia].
  - destruct (RandomForest.fit fuel self X y) as [self1|e] eqn:Hfit;
      [|discriminate].
    rewrite bind_Ok in Hall.
    destruct (fit_appends_trees fuel self self1 X y Hfit)
      as (Hn & new & Htrees & Hnew).
    destruct (IH self1 self' Hall) as (Hn' & Hlen).
    split; [congruence|].
    rewrite Hlen, Htrees, length_app, Hnew, Hn. simpl. lia.
Qed.

(** C10: a call of [fit] keeps the trees that the forest already holds and
    appends [n_estimators] new ones; its outcome does not depend on the
    votes left by an earlier call, because the accumulator is allocated
    anew; [predict] then takes the mode over the predictions of all the
    trees, old and new; and [k] calls on a new forest leave
    [k * n_estimators] trees. *)
Theorem refit_appends_trees :
  (forall (fuel : nat) (self self' : RandomForest.RandomForestClassifier)
          (X : matrix) (y : ndarray),
     RandomForest.fit fuel self X y = Ok self' ->
     RandomForest.n_estimators self' = RandomForest.n_estimators self /\
     (exists new,
        RandomForest.trees self' = RandomForest.trees self ++ new /\
        length new = RandomForest.n_estimators self) /\
     (forall stale,
        RandomForest.fit fuel (RandomForest.set_oob_votes self stale) X y =
        Ok self') /\
     (forall X' out,
        RandomForest.predict self' X' = Ok out ->
        exists predictions,
          Forall2 (fun tree ps =>
                     (p <- DecisionTree.predict tree X' ;; int_array p) = Ok ps)
                  (RandomForest.trees self') predictions /\
          length predictions =
          (length (RandomForest.trees self) + RandomForest.n_estimators self)%nat /\
          out = stats_mode predictions)) /\
  (forall (fuel n_estimators : nat) (max_depth : option Z)
          (min_samples_split : Z) (max_features : option nat)
          (min_impurity_decrease : float) (random_state : Z)
          (datasets : list (matrix * ndarray))
          (self' : RandomForest.RandomForestClassifier),
     fit_all fuel
       (RandomForest.__init__ n_estimators max_depth min_samples_split
          max_features min_impurity_decrease random_state)
       datasets = Ok self' ->
     length (RandomForest.trees self') = (length datasets * n_estimators)%nat).
Proof.
  split.
  - intros fuel self self' X y Hfit.
    destruct (fit_appends_trees fuel self self' X y Hfit)
      as (Hn & new & Htrees & Hnew).
    split; [exact Hn|]. split; [now exists new|]. split.
    + intros stale. exact Hfit.
    + intros X' out Hout. unfold RandomForest.predict in Hout.
      destruct (mapM _ (RandomForest.trees self')) as [predictions|e] eqn:Hp;
        [|discriminate].
      rewrite bind_Ok in Hout. injection Hout as <-.
      apply mapM_Ok_Forall2 in Hp. exists predictions.
      split; [exact Hp|]. split; [|reflexivity].
      rewrite <- (Forall2_length Hp), Htrees, length_app, Hnew. reflexivity.
  - intros fuel n_estimators max_depth min_samples_split max_features
      min_impurity_decrease random_state datasets self' Hall.
    destruct (fit_all_trees fuel datasets _ _ Hall) as (_ & Hlen).
    rewrite Hlen. reflexivity.
Qed.

End Refit.

Lemma refit_appends_trees_witness :
  exists self',
    @fit_all lcg_numpy 20 new_forest [(six_X, six_y); (six_X, six_y)] = Ok self' /\
    length (RandomForest.trees self') = 6%nat.
Proof.
  assert (Hruns : raised (@fit_all lcg_numpy 20 new_forest
                            [(six_X, six_y); (six_X, six_y)]) = false)
    by (vm_compute; reflexivity).
  destruct (@fit_all lcg_numpy 20 new_forest [(six_X, six_y); (six_X, six_y)])
    as [self'|e] eqn:Hall; [|discriminate Hruns].
  exists self'. split; [reflexivity|].
  exact (proj2 (@refit_appends_trees lcg_numpy) 20%nat 3%nat (Some 3) 2 None
           (Fl 0) 42 [(six_X, six_y); (six_X, six_y)] self' Hall).
Defined.

(** ** The recursion of [_grow_tree] is bounded by the number of samples *)




Lemma take_length {A : Type} (l l' : list A) (idxs : list nat) :
  take l idxs = Ok l' -> length l' = length idxs.
Proof.
  intros Hl'. apply mapM_Ok_Forall2 in Hl'. symmetry.
  exact (Forall2_length Hl').
Qed.



Lemma take_rows_length (X X' : matrix) (idxs : list nat) :
  take_rows X idxs = Ok X' -> length (rows X') = length idxs.
Proof.
  unfold take_rows. destruct (take (rows X) idxs) as [rs|e] eqn:Hrs;
    [|discriminate].
  intros [= <-]. simpl. exact (take_length _ _ _ Hrs).
Qed.


Lemma column_length (X : matrix) (idx : nat) (col : list Q) :
  column X idx = Ok col -> length col = length (rows X).
Proof.
  unfold column. destruct (idx <? n_columns X)%nat; [|discriminate].
  intros [= <-]. apply length_map.
Qed.

Lemma argwhere_complement (f : Q -> bool) (l : list Q) :
  forall i,
    (length (argwhere_from i (map f l)) +
     length (argwhere_from i (map (fun v => negb (f v)) l)))%nat = length l.
Proof.
  induction l as [|v l IH]; intros i; simpl; [reflexivity|].
  destruct (f v); simpl; rewrite <- (IH (S i)); lia.
Qed.

Lemma split_lengths (feature : list Q) (t : Q) :
  (length (fst (DecisionTree._split feature t)) +
   length (snd (DecisionTree._split feature t)))%nat = length feature.
Proof.
  simpl. unfold np_argwhere.
  rewrite (map_ext (fun v => Qlt_bool t v) (fun v => negb (Qle_bool v t)))
    by (intros v; apply Qlt_bool_negb_le).
  apply argwhere_complement.
Qed.

Section RecursionDepth.
Context `{Numpy}.
Hypothesis choice_no_overflow :
  forall r a size replace, choice r a size replace <> Raise RecursionError.






End RecursionDepth.

(** ** The two outcomes of one call of [_grow_tree] *)

Lemma bind_Ok_inv {A B : Type} (c : result A) (k : A -> result B) (b : B) :
  bind c k = Ok b -> exists a, c = Ok a /\ k a = Ok b.
Proof.
  destruct c as [a|e]; simpl; [|discriminate]. intros Hk. now exists a.
Qed.

Section GrowTreeCases.
Context `{Numpy}.

Lemma same_parameters_refl (a : DecisionTree.DecisionTreeClassifier) :
  same_parameters a a.
Proof. now repeat split. Qed.

Lemma same_parameters_trans (a b c : DecisionTree.DecisionTreeClassifier) :
  same_parameters a b -> same_parameters b c -> same_parameters a c.
Proof.
  unfold same_parameters. intros (A1 & A2 & A3 & A4 & A5 & A6)
    (B1 & B2 & B3 & B4 & B5 & B6).
  repeat split; congruence.
Qed.

Lemma get_leaf_value_parameters (a b : DecisionTree.DecisionTreeClassifier)
    (y : ndarray) :
  same_parameters a b ->
  DecisionTree._get_leaf_value a y = DecisionTree._get_leaf_value b y.
Proof.
  intros (_ & _ & _ & _ & _ & Hmode). unfold DecisionTree._get_leaf_value.
  now rewrite Hmode.
Qed.

(** A successful call either stops with a leaf that holds the leaf value of
    its labels, or splits on a pair returned by the search, both sides of
    which are non-empty, and recurses on the two sides one level deeper. *)
Lemma grow_tree_cases (fuel : nat) (self self' : DecisionTree.DecisionTreeClassifier)
    (X : matrix) (y : ndarray) (depth : Z) (node : Node) :
  DecisionTree._grow_tree (S fuel) self X y depth = Ok (node, self') ->
  (exists v,
     node = Leaf v /\ DecisionTree._get_leaf_value self y = Ok v /\
     same_parameters self self') \/
  (exists d features_idxs self1 self2 f t g col X_l y_l X_r y_r left_child right_child,
     DecisionTree.max_depth self = Some d /\ depth < d /\
     same_parameters self self1 /\
     DecisionTree._best_criteria self1 X y features_idxs = Ok (Some f, Some t, g) /\
     column X f = Ok col /\
     fst (DecisionTree._split col t) <> [] /\
     snd (DecisionTree._split col t) <> [] /\
     take_rows X (fst (DecisionTree._split col t)) = Ok X_l /\
     np_take y (fst (DecisionTree._split col t)) = Ok y_l /\
     DecisionTree._grow_tree fuel self1 X_l y_l (depth + 1) = Ok (left_child, self2) /\
     take_rows X (snd (DecisionTree._split col t)) = Ok X_r /\
     np_take y (snd (DecisionTree._split col t)) = Ok y_r /\
     DecisionTree._grow_tree fuel self2 X_r y_r (depth + 1) = Ok (right_child, self') /\
     node = Decision f t left_child right_child).
Proof.
  intros Hrun. cbn [DecisionTree._grow_tree shape] in Hrun.
  apply bind_Ok_inv in Hrun as (too_deep & Hdeep & Hrun).
  destruct (DecisionTree.max_depth self) as [d|] eqn:Hd; [|discriminate].
  injection Hdeep as <-.
  destruct (_ || _ || _) eqn:Hstop.
  { apply bind_Ok_inv in Hrun as (v & Hv & Hrun). injection Hrun as <- <-.
    left. exists v. split; [reflexivity|].
    split; [exact Hv | apply same_parameters_refl]. }
  apply orb_false_iff in Hstop as [Hstop _].
  apply orb_false_iff in Hstop as [Hdepth _].
  apply Z.leb_gt in Hdepth.
  apply bind_Ok_inv in Hrun as ([features_idxs self1] & Hdraw & Hrun).
  assert (Hsame : same_parameters self self1).
  { destruct (DecisionTree.max_features self) as [k|].
    - apply bind_Ok_inv in Hdraw as ([drawn r] & _ & Hdraw).
      injection Hdraw as _ <-. now repeat split.
    - injection Hdraw as _ <-. apply same_parameters_refl. }
  clear Hdraw.
  apply bind_Ok_inv in Hrun as ([[best_feat best_thresh] best_gain] & Hbest & Hrun).
  destruct (flt best_gain _).
  { apply bind_Ok_inv in Hrun as (v & Hv & Hrun). injection Hrun as <- <-.
    left. exists v. split; [reflexivity|]. split; [|exact Hsame].
    now rewrite (get_leaf_value_parameters self self1). }
  destruct best_feat as [f|]; [|discriminate].
  destruct best_thresh as [t|]; [|discriminate].
  apply bind_Ok_inv in Hrun as (col & Hcol & Hrun).
  destruct (DecisionTree._split col t) as [left_idxs right_idxs] eqn:Hsplit.
  destruct (_ || _) eqn:Hside.
  { apply bind_Ok_inv in Hrun as (v & Hv & Hrun). injection Hrun as <- <-.
    left. exists v. split; [reflexivity|]. split; [|exact Hsame].
    now rewrite (get_leaf_value_parameters self self1). }
  apply orb_false_iff in Hside as [Hl Hr].
  apply bind_Ok_inv in Hrun as (X_l & HX_l & Hrun).
  apply bind_Ok_inv in Hrun as (y_l & Hy_l & Hrun).
  apply bind_Ok_inv in Hrun as ([left_child self2] & Hleft & Hrun).
  apply bind_Ok_inv in Hrun as (X_r & HX_r & Hrun).
  apply bind_Ok_inv in Hrun as (y_r & Hy_r & Hrun).
  apply bind_Ok_inv in Hrun as ([right_child self3] & Hright & Hrun).
  injection Hrun as <- <-.
  right.
  exists d, features_idxs, self1, self2, f, t, best_gain, col, X_l, y_l, X_r, y_r,
    left_child, right_child.
  rewrite Hsplit. cbn [fst snd].
  repeat match goal with |- _ /\ _ => split end;
    try assumption; try reflexivity.
  - intros ->. discriminate.
  - intros ->. discriminate.
Qed.

End GrowTreeCases.

(** ** Shape of a grown tree *)

Lemma take_In {A : Type} (l l' : list A) (idxs : list nat) :
  take l idxs = Ok l' -> forall a, In a l' -> In a l.
Proof.
  intros Hl' a Ha. apply mapM_Ok_Forall2 in Hl'.
  induction Hl' as [|i b idxs l' Hb _ IH]; [contradiction|].
  destruct Ha as [<- | Ha]; [|now apply IH].
  destruct (nth_error l i) as [c|] eqn:Hc; [|discriminate].
  injection Hb as <-. now apply nth_error_In with i.
Qed.

Lemma np_take_IntArray (l : list Z) (idxs : list nat) (y' : ndarray) :
  np_take (IntArray l) idxs = Ok y' ->
  exists l', y' = IntArray l' /\ length l' = length idxs /\
             forall z, In z l' -> In z l.
Proof.
  simpl. intros Hy'. apply bind_Ok_inv in Hy' as (l' & Hl' & [= <-]).
  exists l'. split; [reflexivity|]. split.
  - exact (take_length _ _ _ Hl').
  - exact (take_In _ _ _ Hl').
Qed.


Lemma take_rows_columns (X X' : matrix) (idxs : list nat) :
  take_rows X idxs = Ok X' -> n_columns X' = n_columns X.
Proof.
  unfold take_rows. intros HX'.
  apply bind_Ok_inv in HX' as (rs & _ & [= <-]). reflexivity.
Qed.

Lemma column_in_range (X : matrix) (idx : nat) (col : list Q) :
  column X idx = Ok col -> (idx < n_columns X)%nat.
Proof.
  unfold column. destruct (Nat.ltb_spec idx (n_columns X)); [auto|discriminate].
Qed.

Lemma existsb_negative_false (l : list Z) :
  existsb (fun z => z <? 0) l = false -> forall z, In z l -> 0 <= z.
Proof.
  intros Hnone z Hz.
  destruct (Z.ltb_spec z 0) as [Hneg|]; [|assumption].
  assert (Hsome : existsb (fun z => z <? 0) l = true).
  { apply existsb_exists. exists z. split; [exact Hz | now apply Z.ltb_lt]. }
  congruence.
Qed.

Lemma most_common_label_In (l : list Z) (v : value) :
  l <> [] -> DecisionTree._most_common_label (IntArray l) = Ok v ->
  exists m, v = VInt m /\ is_lowest_mode l m.
Proof.
  intros Hne Hv.
  assert (Hpos : forall z, In z l -> 0 <= z).
  { apply existsb_negative_false.
    unfold DecisionTree._most_common_label in Hv.
    destruct (len (IntArray l) =? 0)%nat eqn:Hlen.
    - apply Nat.eqb_eq in Hlen. simpl in Hlen.
      now apply length_zero_iff_nil in Hlen.
    - apply bind_Ok_inv in Hv as (counts & Hcounts & _).
      simpl in Hcounts. destruct (existsb _ l); [discriminate | reflexivity]. }
  destruct (most_common_label_lowest_mode l Hne Hpos)
    as (m & counts & Hm & _ & _ & Hmode).
  exists m. split; [congruence | exact Hmode].
Qed.

Lemma all_leaves_weaken (P P' : value -> Prop) (node : Node) :
  (forall v, P v -> P' v) -> all_leaves P node -> all_leaves P' node.
Proof.
  intros Himp. induction node as [v | f t l IHl r IHr]; simpl; [apply Himp|].
  intros [Hl Hr]. split; auto.
Qed.

Section GrownTree.
Context `{Numpy}.

Lemma grow_tree_parameters (fuel : nat) :
  forall (self self' : DecisionTree.DecisionTreeClassifier) (X : matrix)
         (y : ndarray) (depth : Z) (node : Node),
    DecisionTree._grow_tree fuel self X y depth = Ok (node, self') ->
    same_parameters self self'.
Proof.
  induction fuel as [|fuel IH]; intros self self' X y depth node Hrun;
    [discriminate|].
  destruct (grow_tree_cases _ _ _ _ _ _ _ Hrun)
    as [(v & _ & _ & Hsame)
       |(d & fis & self1 & self2 & f & t & g & col & X_l & y_l & X_r & y_r &
         lc & rc & _ & _ & Hsame & _ & _ & _ & _ & _ & _ & Hleft & _ & _ &
         Hright & _)]; [exact Hsame|].
  eapply same_parameters_trans; [exact Hsame|].
  eapply same_parameters_trans; [exact (IH _ _ _ _ _ _ Hleft)|].
  exact (IH _ _ _ _ _ _ Hright).
Qed.

Lemma grow_tree_height (fuel : nat) :
  forall (self self' : DecisionTree.DecisionTreeClassifier) (X : matrix)
         (y : ndarray) (depth d : Z) (node : Node),
    DecisionTree.max_depth self = Some d ->
    DecisionTree._grow_tree fuel self X y depth = Ok (node, self') ->
    Z.of_nat (height node) <= Z.max 0 (d - depth) /\
    (height node < Nat.max 1 (length (rows X)))%nat.
Proof.
  induction fuel as [|fuel IH]; intros self self' X y depth d node Hd Hrun;
    [discriminate|].
  destruct (grow_tree_cases _ _ _ _ _ _ _ Hrun)
    as [(v & -> & _ & _)
       |(d' & fis & self1 & self2 & f & t & g & col & X_l & y_l & X_r & y_r &
         lc & rc & Hd' & Hdepth & Hsame & _ & Hcol & Hl & Hr & HX_l & _ &
         Hleft & HX_r & _ & Hright & ->)].
  { cbn [height]. split; lia. }
  assert (d' = d) by congruence. subst d'.
  assert (Hd1 : DecisionTree.max_depth self1 = Some d).
  { destruct Hsame as (Hmd & _). congruence. }
  assert (Hd2 : DecisionTree.max_depth self2 = Some d).
  { destruct (grow_tree_parameters _ _ _ _ _ _ _ Hleft) as (Hmd & _). congruence. }
  destruct (IH _ _ _ _ _ _ _ Hd1 Hleft) as [Hhl Hnl].
  destruct (IH _ _ _ _ _ _ _ Hd2 Hright) as [Hhr Hnr].
  pose proof (split_lengths col t) as Hsum.
  rewrite (column_length _ _ _ Hcol) in Hsum.
  rewrite (take_rows_length _ _ _ HX_l) in Hnl.
  rewrite (take_rows_length _ _ _ HX_r) in Hnr.
  assert (0 < length (fst (DecisionTree._split col t)))%nat
    by (destruct (fst (DecisionTree._split col t)); [congruence | simpl; lia]).
  assert (0 < length (snd (DecisionTree._split col t)))%nat
    by (destruct (snd (DecisionTree._split col t)); [congruence | simpl; lia]).
  cbn [height]. split; lia.
Qed.

Lemma grow_tree_features_below (fuel : nat) :
  forall (self self' : DecisionTree.DecisionTreeClassifier) (X : matrix)
         (y : ndarray) (depth : Z) (node : Node),
    DecisionTree._grow_tree fuel self X y depth = Ok (node, self') ->
    features_below (n_columns X) node.
Proof.
  induction fuel as [|fuel IH]; intros self self' X y depth node Hrun;
    [discriminate|].
  destruct (grow_tree_cases _ _ _ _ _ _ _ Hrun)
    as [(v & -> & _ & _)
       |(d' & fis & self1 & self2 & f & t & g & col & X_l & y_l & X_r & y_r &
         lc & rc & _ & _ & _ & _ & Hcol & _ & _ & HX_l & _ &
         Hleft & HX_r & _ & Hright & ->)]; [exact I|].
  simpl. split; [exact (column_in_range _ _ _ Hcol)|]. split.
  - rewrite <- (take_rows_columns _ _ _ HX_l). exact (IH _ _ _ _ _ _ Hleft).
  - rewrite <- (take_rows_columns _ _ _ HX_r). exact (IH _ _ _ _ _ _ Hright).
Qed.

Lemma grow_tree_leaves_are_labels (fuel : nat) :
  forall (self self' : DecisionTree.DecisionTreeClassifier) (X : matrix)
         (l : list Z) (depth : Z) (node : Node),
    DecisionTree.is_regression self = false -> l <> [] ->
    DecisionTree._grow_tree fuel self X (IntArray l) depth = Ok (node, self') ->
    all_leaves (fun v => exists m, v = VInt m /\ In m l) node.
Proof.
  induction fuel as [|fuel IH]; intros self self' X l depth node Hmode Hne Hrun;
    [discriminate|].
  destruct (grow_tree_cases _ _ _ _ _ _ _ Hrun)
    as [(v & -> & Hv & _)
       |(d' & fis & self1 & self2 & f & t & g & col & X_l & y_l & X_r & y_r &
         lc & rc & _ & _ & Hsame & _ & _ & Hl & Hr & _ & Hy_l &
         Hleft & _ & Hy_r & Hright & ->)].
  - simpl. unfold DecisionTree._get_leaf_value in Hv. rewrite Hmode in Hv.
    destruct (most_common_label_In l v Hne Hv) as (m & -> & Hin & _).
    now exists m.
  - assert (Hmode1 : DecisionTree.is_regression self1 = false).
    { destruct Hsame as (_ & _ & _ & _ & _ & Hreg). congruence. }
    assert (Hmode2 : DecisionTree.is_regression self2 = false).
    { destruct (grow_tree_parameters _ _ _ _ _ _ _ Hleft)
        as (_ & _ & _ & _ & _ & Hreg). congruence. }
    destruct (np_take_IntArray _ _ _ Hy_l) as (l_l & -> & Hlen_l & Hsub_l).
    destruct (np_take_IntArray _ _ _ Hy_r) as (l_r & -> & Hlen_r & Hsub_r).
    simpl. split.
    + apply all_leaves_weaken
        with (P := fun v => exists m, v = VInt m /\ In m l_l).
      * intros v (m & -> & Hm). exists m. auto.
      * apply (IH _ _ _ _ _ _ Hmode1) with (2 := Hleft).
        intros ->. simpl in Hlen_l. symmetry in Hlen_l.
        now apply length_zero_iff_nil in Hlen_l.
    + apply all_leaves_weaken
        with (P := fun v => exists m, v = VInt m /\ In m l_r).
      * intros v (m & -> & Hm). exists m. auto.
      * apply (IH _ _ _ _ _ _ Hmode2) with (2 := Hright).
        intros ->. simpl in Hlen_r. symmetry in Hlen_r.
        now apply length_zero_iff_nil in Hlen_r.
Qed.

Lemma traverse_tree_total (P : value -> Prop) (n : nat) (x : list Q)
    (node : Node) :
  (forall v, P v -> v <> VNone) -> (n <= length x)%nat ->
  features_below n node -> all_leaves P node ->
  exists v, DecisionTree._traverse_tree x node = Ok v /\ P v.
Proof.
  intros Hsome Hwidth.
  induction node as [v | f t l IHl r IHr]; simpl.
  - intros _ Hv. exists v. split; [|exact Hv].
    specialize (Hsome v Hv). destruct v; [congruence | reflexivity | reflexivity].
  - intros (Hf & Hfl & Hfr) (Hl & Hr).
    destruct (nth_error x f) as [xf|] eqn:Hxf.
    + destruct (Qle_bool xf t); auto.
    + apply nth_error_None in Hxf. lia.
Qed.

End GrownTree.

Section FittedTree.
Context `{Numpy}.

Lemma fit_root (fuel : nat) (self tree : DecisionTree.DecisionTreeClassifier)
    (X : matrix) (y : ndarray) :
  DecisionTree.fit fuel self X y = Ok tree ->
  exists node self',
    DecisionTree._grow_tree fuel self X y 0 = Ok (node, self') /\
    tree = DecisionTree.set_root self' (Some node).
Proof.
  unfold DecisionTree.fit. intros Hfit.
  apply bind_Ok_inv in Hfit as ([node self'] & Hrun & [= <-]).
  now exists node, self'.
Qed.

(** X1: the tree that [fit] stores is no deeper than [max_depth] (a single
    leaf when [max_depth] is zero or negative), and its depth stays below
    the number of training samples. *)
Theorem fitted_tree_depth_bounded (fuel : nat)
    (self tree : DecisionTree.DecisionTreeClassifier) (X : matrix) (y : ndarray) :
  DecisionTree.fit fuel self X y = Ok tree ->
  exists d node,
    DecisionTree.max_depth self = Some d /\
    DecisionTree.root tree = Some node /\
    Z.of_nat (height node) <= Z.max 0 d /\
    (height node < Nat.max 1 (length (rows X)))%nat.
Proof.
  intros Hfit. destruct (fit_root _ _ _ _ _ Hfit) as (node & self' & Hrun & ->).
  destruct (DecisionTree.max_depth self) as [d|] eqn:Hd.
  - exists d, node. split; [reflexivity|]. split; [reflexivity|].
    destruct (grow_tree_height _ _ _ _ _ _ _ _ Hd Hrun) as [Hh Hn].
    rewrite Z.sub_0_r in Hh. now split.
  - destruct fuel; [discriminate|].
    rewrite grow_tree_max_depth_None in Hrun by exact Hd. discriminate.
Qed.

(** X2: a classifier fitted on a non-empty label vector predicts, for any
    input whose rows have at least as many columns as the training matrix,
    one label per row, and every label it predicts occurs among the
    training labels. *)
Theorem classifier_predicts_training_labels (fuel : nat)
    (self tree : DecisionTree.DecisionTreeClassifier) (X X' : matrix)
    (l : list Z) :
  DecisionTree.is_regression self = false -> l <> [] ->
  DecisionTree.fit fuel self X (IntArray l) = Ok tree ->
  (forall x, In x (rows X') -> (n_columns X <= length x)%nat) ->
  exists vals,
    DecisionTree.predict tree X' = Ok vals /\
    length vals = length (rows X') /\
    forall v, In v vals -> exists m, v = VInt m /\ In m l.
Proof.
  intros Hmode Hne Hfit Hwidth.
  destruct (fit_root _ _ _ _ _ Hfit) as (node & self' & Hrun & ->).
  pose proof (grow_tree_features_below _ _ _ _ _ _ _ Hrun) as Hfeat.
  pose proof (grow_tree_leaves_are_labels _ _ _ _ _ _ _ Hmode Hne Hrun) as Hleaves.
  unfold DecisionTree.predict. simpl DecisionTree.root.
  assert (Hrow : forall x, In x (rows X') ->
            exists v, DecisionTree._traverse_tree x node = Ok v /\
                      exists m, v = VInt m /\ In m l).
  { intros x Hx.
    apply traverse_tree_total with (n := n_columns X); auto.
    intros v (m & -> & _). discriminate. }
  destruct (mapM_total (fun x => DecisionTree._traverse_tree x node) (rows X'))
    as (vals & Hvals).
  { intros x Hx. destruct (Hrow x Hx) as (v & Hv & _). now exists v. }
  exists vals. split; [exact Hvals|].
  apply mapM_Ok_Forall2 in Hvals. split.
  - symmetry. exact (Forall2_length Hvals).
  - intros v Hv. apply (In_nth_error vals) in Hv as (i & Hi).
    assert (Hlen := Forall2_length Hvals).
    destruct (nth_error (rows X') i) as [x|] eqn:Hx.
    + destruct (Forall2_nth_error _ _ _ Hvals i x Hx) as (v' & Hv' & Hrun').
      assert (v' = v) by congruence. subst v'.
      destruct (Hrow x (nth_error_In _ _ Hx)) as (v'' & Hv'' & Hlabel).
      assert (v'' = v) by congruence. now subst v''.
    + apply nth_error_None in Hx.
      assert (i < length vals)%nat by (apply nth_error_Some; congruence). lia.
Qed.


End FittedTree.


Lemma fitted_tree_depth_bounded_witness :
  exists tree d node,
    @DecisionTree.fit lcg_numpy 10 stump ramp_X ramp_y = Ok tree /\
    DecisionTree.max_depth stump = Some d /\
    DecisionTree.root tree = Some node /\
    Z.of_nat (height node) <= Z.max 0 d /\
    (height node < Nat.max 1 (length (rows ramp_X)))%nat.
Proof.
  assert (Hruns : raised (@DecisionTree.fit lcg_numpy 10 stump ramp_X ramp_y) = false)
    by (vm_compute; reflexivity).
  destruct (@DecisionTree.fit lcg_numpy 10 stump ramp_X ramp_y) as [tree|e] eqn:Hfit;
    [|discriminate Hruns].
  destruct (@fitted_tree_depth_bounded lcg_numpy 10 stump tree ramp_X ramp_y Hfit)
    as (d & node & Hd & Hroot & Hh & Hn).
  exists tree, d, node. auto.
Defined.

Lemma classifier_predicts_training_labels_witness :
  exists tree vals,
    @DecisionTree.fit lcg_numpy 10 stump ramp_X ramp_y = Ok tree /\
    DecisionTree.predict tree one_row = Ok vals /\
    length vals = length (rows one_row) /\
    forall v, In v vals -> exists m, v = VInt m /\ In m [0; 0; 1; 1].
Proof.
  assert (Hruns : raised (@DecisionTree.fit lcg_numpy 10 stump ramp_X ramp_y) = false)
    by (vm_compute; reflexivity).
  destruct (@DecisionTree.fit lcg_numpy 10 stump ramp_X ramp_y) as [tree|e] eqn:Hfit;
    [|discriminate Hruns].
  destruct (@classifier_predicts_training_labels lcg_numpy 10 stump tree ramp_X
              one_row [0; 0; 1; 1]) as (vals & Hvals & Hlen & Hin).
  - reflexivity.
  - discriminate.
  - exact Hfit.
  - intros x [<- | []]. simpl. lia.
  - exists tree, vals. auto.
Defined.


(** ** What the split search returns *)

Section BestCriteria.
Context `{Numpy}.

(** X4: the gain returned by [_best_criteria] is beaten by no candidate
    pair, and the pair returned with it is a candidate pair of a listed
    feature that scores exactly that gain; when nothing is returned (no
    pair at all, or only NaN gains) the gain is minus infinity. *)
Theorem best_criteria_is_maximal (self : DecisionTree.DecisionTreeClassifier)
    (X : matrix) (y : ndarray) (features_idxs : list nat)
    (best_feat : option nat) (best_thresh : option Q) (best_gain : float) :
  DecisionTree._best_criteria self X y features_idxs =
  Ok (best_feat, best_thresh, best_gain) ->
  (forall f t g,
     In f features_idxs -> candidate self X y f t g -> fgt g best_gain = false) /\
  ((best_feat = None /\ best_thresh = None /\ best_gain = Inf true) \/
   (exists f t,
      best_feat = Some f /\ best_thresh = Some t /\ In f features_idxs /\
      candidate self X y f t best_gain)).
Proof.
  unfold DecisionTree._best_criteria. intros Hrun.
  destruct (search_features_inv self X y features_idxs _ _ Hrun)
    as (Hch & _ & Hseen).
  split; [exact Hseen|].
  specialize (Hch (fun f t g => In f features_idxs /\ candidate self X y f t g)).
  destruct Hch as [Hnone | (f & t & Hf & Ht & (Hin & Hcand) & _)].
  - auto.
  - now left.
  - now left.
  - right. now exists f, t.
Qed.

End BestCriteria.

Lemma best_criteria_is_maximal_witness :
  (forall f t g,
     In f [0%nat] -> @candidate lcg_numpy stump ramp_X ramp_y f t g ->
     fgt g (Fl (1024 # 1024)) = false) /\
  ((Some 0%nat = None /\ Some 1%Q = None /\ Fl (1024 # 1024) = Inf true) \/
   (exists f t,
      Some 0%nat = Some f /\ Some 1%Q = Some t /\ In f [0%nat] /\
      @candidate lcg_numpy stump ramp_X ramp_y f t (Fl (1024 # 1024)))).
Proof.
  apply (@best_criteria_is_maximal lcg_numpy stump ramp_X ramp_y [0%nat]).
  reflexivity.
Defined.

(** ** Bootstrap samples and rounds *)

Lemma unique_counts_seq (n : nat) :
  forall s, unique_counts Nat.compare (seq s n) = map (fun i => (i, 1%nat)) (seq s n).
Proof.
  induction n as [|n IH]; intros s; [reflexivity|].
  change (unique_counts Nat.compare (seq s (S n)))
    with (insert_count Nat.compare s (unique_counts Nat.compare (seq (S s) n))).
  rewrite IH. destruct n as [|n]; [reflexivity|].
  simpl. destruct (Nat.compare_spec s (S s)); try lia. reflexivity.
Qed.

Lemma np_unique_seq (s n : nat) : np_unique Nat.compare (seq s n) = seq s n.
Proof.
  unfold np_unique. rewrite unique_counts_seq, map_map. simpl. apply map_id.
Qed.

Lemma increasing_filter_seq (f : nat -> bool) (n : nat) :
  forall s, increasing (filter f (seq s n)).
Proof.
  induction n as [|n IH]; intros s; simpl; [exact I|].
  destruct (f s); [|apply IH]. simpl. split; [|apply IH].
  intros j Hj. apply filter_In in Hj as [Hj _]. apply in_seq in Hj. lia.
Qed.

Lemma In_setdiff1d_arange (n : nat) (b : list nat) (i : nat) :
  In i (np_setdiff1d (seq 0 n) b) <-> (i < n)%nat /\ ~ In i b.
Proof.
  unfold np_setdiff1d. rewrite np_unique_seq, filter_In, in_seq, negb_true_iff.
  split; intros [Hi Hout]; (split; [lia|]).
  - intros Hin. assert (existsb (Nat.eqb i) b = true); [|congruence].
    apply existsb_exists. exists i. split; [exact Hin | apply Nat.eqb_refl].
  - apply not_true_is_false. intros Hex. apply existsb_exists in Hex as (j & Hj & Heq).
    apply Nat.eqb_eq in Heq. subst j. contradiction.
Qed.

Section Rounds.
Context `{Numpy}.

Lemma bootstrap_sample_inv (self self' : RandomForest.RandomForestClassifier)
    (X : matrix) (y : ndarray) (bootstrap_indices oob_indices : list nat) :
  RandomForest._bootstrap_sample self X y =
  Ok (bootstrap_indices, oob_indices, self') ->
  oob_indices = np_setdiff1d (seq 0 (length (rows X))) bootstrap_indices /\
  self' = RandomForest.set_random self (RandomForest.random self').
Proof.
  unfold RandomForest._bootstrap_sample, shape. intros Hdraw.
  apply bind_Ok_inv in Hdraw as ([drawn r] & _ & Hdraw).
  now injection Hdraw as <- <- <-.
Qed.

(** X5: the OOB indices of a round are exactly the row indices that the
    bootstrap draw missed, listed once each in increasing order; the draw
    only advances the forest's generator. *)
Theorem bootstrap_oob_complement (self self' : RandomForest.RandomForestClassifier)
    (X : matrix) (y : ndarray) (bootstrap_indices oob_indices : list nat) :
  RandomForest._bootstrap_sample self X y =
  Ok (bootstrap_indices, oob_indices, self') ->
  (forall i, In i oob_indices <->
             (i < length (rows X))%nat /\ ~ In i bootstrap_indices) /\
  increasing oob_indices /\
  self' = RandomForest.set_random self (RandomForest.random self').
Proof.
  intros Hdraw. destruct (bootstrap_sample_inv _ _ _ _ _ _ Hdraw) as [-> Hself].
  split; [intros i; apply In_setdiff1d_arange|]. split; [|exact Hself].
  unfold np_setdiff1d. rewrite np_unique_seq. apply increasing_filter_seq.
Qed.

Lemma fit_parameters (fuel : nat) (self tree : DecisionTree.DecisionTreeClassifier)
    (X : matrix) (y : ndarray) :
  DecisionTree.fit fuel self X y = Ok tree ->
  same_parameters self tree /\ DecisionTree.root tree <> None.
Proof.
  intros Hfit. destruct (fit_root _ _ _ _ _ Hfit) as (node & self' & Hrun & ->).
  split; [|discriminate].
  exact (grow_tree_parameters _ _ _ _ _ _ _ Hrun).
Qed.

Lemma int_array_length (vals : list value) (ps : list Z) :
  int_array vals = Ok ps -> length ps = length vals.
Proof.
  intros Hps. apply mapM_Ok_Forall2 in Hps. symmetry.
  exact (Forall2_length Hps).
Qed.

Lemma predict_length (tree : DecisionTree.DecisionTreeClassifier) (X : matrix)
    (vals : list value) :
  DecisionTree.predict tree X = Ok vals -> length vals = length (rows X).
Proof.
  unfold DecisionTree.predict. destruct (DecisionTree.root tree); [|discriminate].
  intros Hvals. apply mapM_Ok_Forall2 in Hvals. symmetry.
  exact (Forall2_length Hvals).
Qed.

Lemma train_tree_inv (fuel : nat) (self : RandomForest.RandomForestClassifier)
    (X : matrix) (y : ndarray) (tree_idx : nat)
    (bootstrap_indices oob_indices oob_indices' : list nat)
    (tree : DecisionTree.DecisionTreeClassifier) (oob_pred : list Z) :
  RandomForest._train_tree fuel self X y tree_idx bootstrap_indices oob_indices =
  Ok (tree, oob_pred, oob_indices') ->
  oob_indices' = oob_indices /\
  length oob_pred = length oob_indices /\
  tree_of_forest self tree.
Proof.
  unfold RandomForest._train_tree. intros Hrun.
  apply bind_Ok_inv in Hrun as (X_b & _ & Hrun).
  apply bind_Ok_inv in Hrun as (y_b & _ & Hrun).
  apply bind_Ok_inv in Hrun as (fitted & Hfit & Hrun).
  apply bind_Ok_inv in Hrun as (X_oob & HX_oob & Hrun).
  apply bind_Ok_inv in Hrun as (preds & Hpreds & Hrun).
  apply bind_Ok_inv in Hrun as (y_oob & _ & Hrun).
  injection Hrun as <- <- <-.
  apply take_rows_length in HX_oob.
  destruct (fit_parameters _ _ _ _ _ Hfit)
    as ((P1 & P2 & P3 & P4 & P5 & P6) & Hroot).
  simpl in P1, P2, P3, P4, P5, P6.
  split; [reflexivity|]. split.
  - destruct (0 <? length (rows X_oob))%nat eqn:Hsome.
    + apply bind_Ok_inv in Hpreds as (vals & Hvals & Hints).
      rewrite (int_array_length _ _ Hints), (predict_length _ _ _ Hvals).
      exact HX_oob.
    + injection Hpreds as <-. apply Nat.ltb_ge in Hsome. simpl. lia.
  - unfold tree_of_forest. repeat split; auto.
Qed.

(** X6: a round hands back the OOB indices it was given with exactly one
    integer prediction per OOB index, and a fitted tree that carries the
    forest's own parameters, among them the forest's [random_state], in
    classification mode. *)
Theorem train_tree_round (fuel : nat) (self : RandomForest.RandomForestClassifier)
    (X : matrix) (y : ndarray) (tree_idx : nat)
    (bootstrap_indices oob_indices oob_indices' : list nat)
    (tree : DecisionTree.DecisionTreeClassifier) (oob_pred : list Z) :
  RandomForest._train_tree fuel self X y tree_idx bootstrap_indices oob_indices =
  Ok (tree, oob_pred, oob_indices') ->
  oob_indices' = oob_indices /\
  length oob_pred = length oob_indices /\
  DecisionTree.root tree <> None /\
  DecisionTree.max_depth tree = RandomForest.max_depth self /\
  DecisionTree.min_samples_split tree = RandomForest.min_samples_split self /\
  DecisionTree.max_features tree = RandomForest.max_features self /\
  DecisionTree.min_impurity_decrease tree = RandomForest.min_impurity_decrease self /\
  DecisionTree.random_state tree = RandomForest.random_state self /\
  DecisionTree.is_regression tree = false.
Proof.
  intros Hrun.
  destruct (train_tree_inv _ _ _ _ _ _ _ _ _ _ Hrun) as (Hidx & Hlen & Htree).
  split; [exact Hidx|]. split; [exact Hlen | exact Htree].
Qed.

End Rounds.

Lemma bootstrap_oob_complement_witness :
  exists bootstrap_indices oob_indices self',
    @RandomForest._bootstrap_sample lcg_numpy new_forest six_X six_y =
    Ok (bootstrap_indices, oob_indices, self') /\
    (forall i, In i oob_indices <->
               (i < length (rows six_X))%nat /\ ~ In i bootstrap_indices) /\
    increasing oob_indices /\
    self' = RandomForest.set_random new_forest (RandomForest.random self').
Proof.
  assert (Hruns : raised (@RandomForest._bootstrap_sample lcg_numpy new_forest
                            six_X six_y) = false) by (vm_compute; reflexivity).
  destruct (@RandomForest._bootstrap_sample lcg_numpy new_forest six_X six_y)
    as [[[bootstrap_indices oob_indices] self']|e] eqn:Hdraw;
    [|discriminate Hruns].
  exists bootstrap_indices, oob_indices, self'. split; [reflexivity|].
  exact (@bootstrap_oob_complement lcg_numpy new_forest self' six_X six_y
           bootstrap_indices oob_indices Hdraw).
Defined.

Lemma train_tree_round_witness :
  exists tree oob_pred oob_indices',
    @RandomForest._train_tree lcg_numpy 20 new_forest six_X six_y 0
      [0; 0; 2; 3; 3; 5]%nat [1; 4]%nat = Ok (tree, oob_pred, oob_indices') /\
    oob_indices' = [1; 4]%nat /\
    length oob_pred = 2%nat /\
    DecisionTree.random_state tree = 42.
Proof.
  assert (Hruns : raised (@RandomForest._train_tree lcg_numpy 20 new_forest
                            six_X six_y 0 [0; 0; 2; 3; 3; 5]%nat [1; 4]%nat) = false)
    by (vm_compute; reflexivity).
  destruct (@RandomForest._train_tree lcg_numpy 20 new_forest six_X six_y 0
              [0; 0; 2; 3; 3; 5]%nat [1; 4]%nat)
    as [[[tree oob_pred] oob_indices']|e] eqn:Hrun; [|discriminate Hruns].
  destruct (@train_tree_round lcg_numpy 20 new_forest six_X six_y 0%nat
              [0; 0; 2; 3; 3; 5]%nat [1; 4]%nat oob_indices' tree oob_pred Hrun)
    as (Hidx & Hlen & _ & _ & _ & _ & _ & Hseed & _).
  exists tree, oob_pred, oob_indices'. auto.
Defined.

(** ** Votes are counted once *)

Lemma list_sum_update_S (row : list nat) :
  forall j, (j < length row)%nat -> list_sum (update S j row) = S (list_sum row).
Proof.
  induction row as [|c row IH]; intros [|j] Hj; simpl in *; try lia.
  rewrite IH by lia. lia.
Qed.

Lemma np_index_lt (n : nat) (i : Z) (j : nat) :
  np_index n i = Ok j -> (j < n)%nat.
Proof.
  unfold np_index.
  destruct ((0 <=? i) && (i <? Z.of_nat n)) eqn:Hin.
  - intros [= <-]. apply andb_true_iff in Hin as [H0 H1].
    apply Z.leb_le in H0. apply Z.ltb_lt in H1. lia.
  - destruct ((- Z.of_nat n <=? i) && (i <? 0)) eqn:Hneg; [|discriminate].
    intros [= <-]. apply andb_true_iff in Hneg as [H0 H1].
    apply Z.leb_le in H0. apply Z.ltb_lt in H1. lia.
Qed.

Lemma total_votes_update (f : list nat -> list nat) (v : list (list nat)) :
  forall i row, nth_error v i = Some row ->
    (total_votes (update f i v) + list_sum row)%nat =
    (total_votes v + list_sum (f row))%nat.
Proof.
  unfold total_votes.
  induction v as [|r v IH]; intros [|i] row Hrow; simpl in *; try discriminate.
  - injection Hrow as ->. lia.
  - specialize (IH i row Hrow). lia.
Qed.

Lemma vote_counts_once (v v' : list (list nat)) (idx : nat) (prediction : Z) :
  RandomForest.vote v idx prediction = Ok v' ->
  total_votes v' = S (total_votes v) /\
  map (@length nat) v' = map (@length nat) v.
Proof.
  unfold RandomForest.vote.
  destruct (nth_error v idx) as [row|] eqn:Hrow; [|discriminate].
  intros Hv'. apply bind_Ok_inv in Hv' as (j & Hj & [= <-]).
  apply np_index_lt in Hj. split.
  - pose proof (total_votes_update (update S j) v idx row Hrow) as Hsum.
    rewrite list_sum_update_S in Hsum by exact Hj. lia.
  - apply widths_update. intros r. apply length_update.
Qed.

Lemma record_votes_counts (pairs : list (nat * Z)) :
  forall v v',
    RandomForest.record_votes v pairs = Ok v' ->
    total_votes v' = (total_votes v + length pairs)%nat /\
    map (@length nat) v' = map (@length nat) v.
Proof.
  induction pairs as [|[idx prediction] pairs IH]; intros v v' Hv'; simpl in Hv'.
  - injection Hv' as <-. split; [simpl; lia | reflexivity].
  - apply bind_Ok_inv in Hv' as (v1 & Hv1 & Hv').
    destruct (vote_counts_once _ _ _ _ Hv1) as [Ht1 Hw1].
    destruct (IH _ _ Hv') as [Ht Hw]. split; [simpl; lia | congruence].
Qed.


Section VoteCount.
Context `{Numpy}.

(** X7: merging the rounds adds exactly one vote per (OOB index,
    prediction) pair to the accumulator and leaves its shape as it is. *)
Theorem merge_counts_every_vote (results : list RandomForest.round)
    (self s : RandomForest.RandomForestClassifier) :
  RandomForest.merge_results results self = Ok s ->
  total_votes (RandomForest.oob_votes s) =
  (total_votes (RandomForest.oob_votes self) +
   length (flat_map round_pairs results))%nat /\
  map (@length nat) (RandomForest.oob_votes s) =
  map (@length nat) (RandomForest.oob_votes self).
Proof.
  intros Hs. pose proof (merge_results_votes results self) as Hvotes.
  rewrite Hs, bind_Ok in Hvotes. symmetry in Hvotes.
  exact (record_votes_counts _ _ _ Hvotes).
Qed.

(** X8: the score that [_calculate_oob_score] stores lies between 0 and 1;
    otherwise the object is returned unchanged. *)
Theorem oob_score_in_unit_interval (self s : RandomForest.RandomForestClassifier)
    (labels : list Z) :
  length labels = length (RandomForest.oob_votes self) ->
  RandomForest._calculate_oob_score self (IntArray labels) = Ok s ->
  s = self \/
  exists q, s = RandomForest.set_oob_score_ self (Some (Fl q)) /\
            (0 <= q)%Q /\ (q <= 1)%Q.
Proof.
  intros Hlen Hs.
  pose proof (calculate_oob_score_accuracy self labels Hlen) as Hacc.
  unfold oob_accuracy in Hacc.
  destruct (filter _ (combine (RandomForest.oob_votes self) labels))
    as [|rl scored] eqn:Hscored.
  - left. congruence.
  - right. destruct Hacc as (q & Hq & Heq). exists q.
    split; [congruence|]. rewrite Heq.
    set (right_ones := length (filter vote_is_right (rl :: scored))).
    assert (Hle : (right_ones <= length (rl :: scored))%nat)
      by apply filter_length_le.
    assert (Hpos : (0 < inject_Z (Z.of_nat (length (rl :: scored))))%Q).
    { change 0%Q with (inject_Z 0). rewrite <- Zlt_Qlt. simpl length. lia. }
    split.
    + apply Qle_shift_div_l; [exact Hpos|]. rewrite Qmult_0_l.
      change 0%Q with (inject_Z 0). rewrite <- Zle_Qle. lia.
    + apply Qle_shift_div_r; [exact Hpos|]. rewrite Qmult_1_l.
      rewrite <- Zle_Qle. lia.
Qed.

End VoteCount.

Lemma merge_counts_every_vote_witness :
  exists s,
    @RandomForest.merge_results lcg_numpy [round_a; round_b] empty_forest = Ok s /\
    total_votes (RandomForest.oob_votes s) = 4%nat /\
    map (@length nat) (RandomForest.oob_votes s) = [2; 2; 2]%nat.
Proof.
  assert (Hruns : raised (@RandomForest.merge_results lcg_numpy [round_a; round_b]
                            empty_forest) = false) by (vm_compute; reflexivity).
  destruct (@RandomForest.merge_results lcg_numpy [round_a; round_b] empty_forest)
    as [s|e] eqn:Hs; [|discriminate Hruns].
  exists s. split; [reflexivity|].
  exact (@merge_counts_every_vote lcg_numpy [round_a; round_b] empty_forest s Hs).
Defined.

Lemma oob_score_in_unit_interval_witness :
  exists s,
    @RandomForest._calculate_oob_score lcg_numpy voted_forest (IntArray [1; 1; 1]) =
    Ok s /\
    (s = voted_forest \/
     exists q, s = RandomForest.set_oob_score_ voted_forest (Some (Fl q)) /\
               (0 <= q)%Q /\ (q <= 1)%Q).
Proof.
  assert (Hruns : raised (@RandomForest._calculate_oob_score lcg_numpy voted_forest
                            (IntArray [1; 1; 1])) = false)
    by (vm_compute; reflexivity).
  destruct (@RandomForest._calculate_oob_score lcg_numpy voted_forest
              (IntArray [1; 1; 1])) as [s|e] eqn:Hs; [|discriminate Hruns].
  exists s. split; [reflexivity|].
  exact (@oob_score_in_unit_interval lcg_numpy voted_forest s [1; 1; 1] eq_refl Hs).
Defined.

(** ** What [fit] leaves in the forest *)

Section ForestFit.
Context `{Numpy}.

Lemma train_rounds_rounds (fuel : nat) (X : matrix) (y : ndarray)
    (tree_idxs : list nat) :
  forall self rs s,
    RandomForest.train_rounds fuel self X y tree_idxs = Ok (rs, s) ->
    forest_parameters s = forest_parameters self /\
    Forall (fun r => tree_of_forest self (round_tree r) /\
                     length (round_pairs r) = length (snd r) /\
                     (forall i, In i (snd r) -> (i < length (rows X))%nat))
           rs.
Proof.
  induction tree_idxs as [|i tree_idxs IH]; intros self rs s Hrun;
    simpl in Hrun.
  - injection Hrun as <- <-. split; [reflexivity | constructor].
  - apply bind_Ok_inv in Hrun as ([[boot oob] self1] & Hdraw & Hrun).
    apply bind_Ok_inv in Hrun as ([[tree oob_pred] oob'] & Htrain & Hrun).
    apply bind_Ok_inv in Hrun as ([rs' s'] & Hrest & Hrun).
    injection Hrun as <- <-.
    destruct (bootstrap_sample_inv _ _ _ _ _ _ Hdraw) as (Hoob & Hself1).
    destruct (train_tree_inv _ _ _ _ _ _ _ _ _ _ Htrain) as (-> & Hlen & Htree).
    destruct (IH _ _ _ Hrest) as (Hparams & Hall).
    rewrite Hself1 in Hparams, Hall, Htree.
    split; [exact Hparams|]. constructor.
    + split; [exact Htree|]. split.
      * simpl. rewrite length_combine, Hlen. apply Nat.min_id.
      * intros j Hj. simpl in Hj. rewrite Hoob in Hj.
        now apply In_setdiff1d_arange in Hj.
    + exact Hall.
Qed.

Lemma merge_results_parameters (results : list RandomForest.round) :
  forall self s,
    RandomForest.merge_results results self = Ok s ->
    forest_parameters s = forest_parameters self.
Proof.
  induction results as [|[[tree oob_pred] oob_indices] results IH];
    intros self s Hs; simpl in Hs.
  - now injection Hs as <-.
  - apply bind_Ok_inv in Hs as (votes & _ & Hs).
    now rewrite (IH _ _ Hs).
Qed.

Lemma calculate_oob_score_parameters (self s : RandomForest.RandomForestClassifier)
    (y : ndarray) :
  RandomForest._calculate_oob_score self y = Ok s ->
  forest_parameters s = forest_parameters self.
Proof.
  unfold RandomForest._calculate_oob_score.
  destruct (existsb _ _); [|now intros [= <-]].
  intros Hs.
  apply bind_Ok_inv in Hs as (voted & _ & Hs).
  apply bind_Ok_inv in Hs as (preds & _ & Hs).
  apply bind_Ok_inv in Hs as (y_voted & _ & Hs).
  now injection Hs as <-.
Qed.


(** X9: a successful [fit] settles [max_features] once, as the value given
    at construction when that is a positive number and as the integer
    square root of the number of columns otherwise, and leaves the other
    parameters alone; each tree it appends is fitted, in classification
    mode, with the forest's parameters, the settled [max_features] and the
    forest's own [random_state]. *)
Theorem fit_settles_parameters (fuel : nat)
    (self self' : RandomForest.RandomForestClassifier) (X : matrix) (y : ndarray) :
  RandomForest.fit fuel self X y = Ok self' ->
  forest_parameters self' =
  forest_parameters
    (RandomForest.set_max_features self
       (RandomForest.max_features_or_sqrt (RandomForest.max_features self)
          (n_columns X))) /\
  (forall k, RandomForest.max_features self = Some (S k) ->
             RandomForest.max_features self' = Some (S k)) /\
  exists new,
    RandomForest.trees self' = RandomForest.trees self ++ new /\
    Forall (tree_of_forest self') new.
Proof.
  intros Hfit.
  destruct (fit_steps fuel self self' X y Hfit)
    as (votes & results & trained & merged & _ & Htrain & Hmerge & Hscore).
  destruct (train_rounds_rounds _ _ _ _ _ _ _ Htrain) as (Hp1 & Hall).
  destruct (train_rounds_frame _ _ _ _ _ _ _ Htrain) as (_ & _ & _ & Ht1 & _).
  pose proof (merge_results_parameters _ _ _ Hmerge) as Hp2.
  pose proof (merge_results_trees _ _ _ Hmerge) as Ht2.
  pose proof (calculate_oob_score_parameters _ _ _ Hscore) as Hp3.
  destruct (calculate_oob_score_frame _ _ _ Hscore) as (_ & Ht3 & _).
  assert (Hp : forest_parameters self' =
               forest_parameters
                 (RandomForest.set_max_features self
                    (RandomForest.max_features_or_sqrt
                       (RandomForest.max_features self) (n_columns X)))).
  { rewrite Hp3, Hp2, Hp1. reflexivity. }
  split; [exact Hp|]. split.
  - intros k Hk. unfold forest_parameters in Hp. simpl in Hp.
    injection Hp as _ _ _ Hmf _ _. rewrite Hmf, Hk. reflexivity.
  - exists (map round_tree results). split.
    + rewrite Ht3, Ht2, Ht1. reflexivity.
    + apply Forall_map. apply Forall_impl with (2 := Hall).
      intros r ((Hroot & Q1 & Q2 & Q3 & Q4 & Q5 & Q6) & _).
      unfold forest_parameters in Hp. simpl in Hp.
      injection Hp as _ E1 E2 E3 E4 E5.
      unfold tree_of_forest. simpl in Q1, Q2, Q3, Q4, Q5.
      repeat split; congruence.
Qed.


End ForestFit.

Lemma fit_settles_parameters_witness :
  exists self',
    @RandomForest.fit lcg_numpy 20 new_forest six_X six_y = Ok self' /\
    RandomForest.max_features self' = Some 1%nat /\
    exists new,
      RandomForest.trees self' = RandomForest.trees new_forest ++ new /\
      Forall (tree_of_forest self') new.
Proof.
  assert (Hruns : raised (@RandomForest.fit lcg_numpy 20 new_forest six_X six_y) = false)
    by (vm_compute; reflexivity).
  destruct (@RandomForest.fit lcg_numpy 20 new_forest six_X six_y)
    as [self'|e] eqn:Hfit; [|discriminate Hruns].
  destruct (@fit_settles_parameters lcg_numpy 20 new_forest self' six_X six_y Hfit)
    as (Hp & _ & Hnew).
  exists self'. split; [reflexivity|]. split; [|exact Hnew].
  unfold forest_parameters in Hp. now injection Hp as _ _ _ Hmf _ _.
Defined.


(** ** The two index arrays of a split *)



(** ** Ensembles and the order of their trees *)

Lemma map_nth_seq (ps : list Z) :
  map (fun j => nth j ps 0) (seq 0 (length ps)) = ps.
Proof.
  induction ps as [|p ps IH]; [reflexivity|].
  simpl. f_equal. rewrite <- seq_shift, map_map. exact IH.
Qed.

Lemma is_lowest_mode_unique (col : list Z) (m m' : Z) :
  is_lowest_mode col m -> is_lowest_mode col m' -> m = m'.
Proof.
  intros (_ & Hge & Hlow) (_ & Hge' & Hlow').
  assert (Heq : count_occ Z.eq_dec col m = count_occ Z.eq_dec col m').
  { specialize (Hge m'). specialize (Hge' m). lia. }
  specialize (Hlow m' (eq_sym Heq)). specialize (Hlow' m Heq). lia.
Qed.

Lemma mode_Permutation (col col' : list Z) :
  Permutation col col' -> mode col = mode col'.
Proof.
  intros Hperm. destruct col as [|c col].
  - apply Permutation_nil in Hperm. now subst col'.
  - apply is_lowest_mode_unique with (col := c :: col).
    + apply mode_is_lowest_mode. discriminate.
    + assert (Hne : col' <> []).
      { intros ->. apply Permutation_sym, Permutation_nil in Hperm. discriminate. }
      destruct (mode_is_lowest_mode col' Hne) as (Hin & Hge & Hlow).
      pose proof (proj1 (Permutation_count_occ Z.eq_dec (c :: col) col') Hperm)
        as Hcount.
      repeat split.
      * apply Permutation_in with col'; [now apply Permutation_sym | exact Hin].
      * intros v. rewrite !Hcount. apply Hge.
      * intros v. rewrite !Hcount. apply Hlow.
Qed.

Lemma mapM_Permutation {A B : Type} (f : A -> result B) (l l' : list A) :
  Permutation l l' ->
  forall bs, mapM f l = Ok bs ->
             exists bs', mapM f l' = Ok bs' /\ Permutation bs bs'.
Proof.
  induction 1 as [| a l l' _ IH | a a' l | l l' l'' _ IH1 _ IH2]; intros bs Hbs.
  - exists bs. split; [exact Hbs | apply Permutation_refl].
  - simpl in Hbs. apply bind_Ok_inv in Hbs as (b & Hb & Hbs).
    apply bind_Ok_inv in Hbs as (bs0 & Hbs0 & [= <-]).
    destruct (IH _ Hbs0) as (bs' & Hbs' & Hperm).
    exists (b :: bs'). simpl. rewrite Hb, Hbs'. split; [reflexivity|].
    now constructor.
  - simpl in Hbs. apply bind_Ok_inv in Hbs as (b' & Hb' & Hbs).
    apply bind_Ok_inv in Hbs as (bs1 & Hbs1 & [= <-]).
    apply bind_Ok_inv in Hbs1 as (b & Hb & Hbs1).
    apply bind_Ok_inv in Hbs1 as (bs0 & Hbs0 & [= <-]).
    exists (b :: b' :: bs0). simpl. rewrite Hb, Hb', Hbs0.
    split; [reflexivity | apply perm_swap].
  - destruct (IH1 _ Hbs) as (bs' & Hbs' & Hperm1).
    destruct (IH2 _ Hbs') as (bs'' & Hbs'' & Hperm2).
    exists bs''. split; [exact Hbs''|]. now apply Permutation_trans with bs'.
Qed.

Section TreeOrder.
Context `{Numpy}.

Lemma stats_mode_columns (X : matrix) (trees : list DecisionTree.DecisionTreeClassifier)
    (preds : list (list Z)) :
  trees <> [] ->
  Forall2 (fun tree ps => (p <- DecisionTree.predict tree X ;; int_array p) = Ok ps)
          trees preds ->
  stats_mode preds =
  map (fun j => mode (map (fun row => nth j row 0) preds))
      (seq 0 (length (rows X))).
Proof.
  intros Hne Hall. destruct Hall as [|tree r ts preds Hr _]; [congruence|].
  simpl. now rewrite (proj1 (tree_predict_rows tree X r Hr)).
Qed.

(** X12: an ensemble that holds a single tree returns that tree's
    predictions. *)
Theorem single_tree_forest_predict (self : RandomForest.RandomForestClassifier)
    (tree : DecisionTree.DecisionTreeClassifier) (X : matrix) (ps : list Z) :
  RandomForest.trees self = [tree] ->
  (p <- DecisionTree.predict tree X ;; int_array p) = Ok ps ->
  RandomForest.predict self X = Ok ps.
Proof.
  intros Htrees Hps. unfold RandomForest.predict. rewrite Htrees. simpl mapM.
  rewrite Hps. simpl. f_equal. apply map_nth_seq.
Qed.

(** X13: the order in which the trees are listed does not change what the
    ensemble predicts. *)
Theorem predict_ignores_tree_order (a b : RandomForest.RandomForestClassifier)
    (X : matrix) (out : list Z) :
  Permutation (RandomForest.trees a) (RandomForest.trees b) ->
  RandomForest.predict a X = Ok out ->
  RandomForest.predict b X = Ok out.
Proof.
  intros Hperm. unfold RandomForest.predict. intros Hout.
  apply bind_Ok_inv in Hout as (preds & Hpreds & [= <-]).
  destruct (mapM_Permutation _ _ _ Hperm _ Hpreds) as (preds' & Hpreds' & Hpp).
  rewrite Hpreds', bind_Ok. f_equal.
  destruct (RandomForest.trees a) as [|ta tsa] eqn:Ha.
  - apply Permutation_nil in Hperm. rewrite Hperm in Hpreds'.
    simpl in Hpreds, Hpreds'. congruence.
  - assert (Hb : RandomForest.trees b <> []).
    { intros Hnil. rewrite Hnil in Hperm.
      apply Permutation_sym, Permutation_nil in Hperm. discriminate. }
    rewrite (stats_mode_columns X (ta :: tsa) preds);
      [|discriminate | now apply mapM_Ok_Forall2].
    rewrite (stats_mode_columns X (RandomForest.trees b) preds');
      [|exact Hb | now apply mapM_Ok_Forall2].
    apply map_ext. intros j. apply mode_Permutation.
    apply Permutation_map, Permutation_sym, Hpp.
Qed.

End TreeOrder.

Lemma single_tree_forest_predict_witness :
  @RandomForest.predict lcg_numpy
    (RandomForest.set_trees empty_forest [label_one_tree]) one_row = Ok [1].
Proof.
  apply (@single_tree_forest_predict lcg_numpy
           (RandomForest.set_trees empty_forest [label_one_tree])
           label_one_tree one_row [1]); reflexivity.
Defined.

Lemma predict_ignores_tree_order_witness :
  @RandomForest.predict lcg_numpy
    (RandomForest.set_trees empty_forest
       [label_one_tree; label_zero_tree; label_one_tree]) one_row = Ok [1].
Proof.
  apply (@predict_ignores_tree_order lcg_numpy three_trees
           (RandomForest.set_trees empty_forest
              [label_one_tree; label_zero_tree; label_one_tree]) one_row [1]).
  - apply perm_swap.
  - reflexivity.
Defined.

(** ** Training rows and the leaves they reach *)








Section TrainingRows.
Context `{Numpy}.




(** X15: the entropy of a label vector that holds a single class is 0
    (for a logarithm that is 0 at 1). *)
Theorem entropy_single_class (l : list Z) (c : Z) :
  (forall q, (q == 1)%Q -> (log2 q == 0)%Q) ->
  l <> [] -> (forall z, In z l -> z = c) ->
  exists e, DecisionTree._entropy (IntArray l) = Fl e /\ (e == 0)%Q.
Proof.
  intros Hlog Hne Hall. unfold DecisionTree._entropy. simpl np_unique_counts.
  rewrite (unique_counts_constant Z.compare c l);
    [|apply Z.compare_refl | exact Hne | exact Hall].
  simpl len. simpl map.
  set (p := (inject_Z (Z.of_nat (length l)) / inject_Z (Z.of_nat (length l)))%Q).
  assert (Hp : (p == 1)%Q).
  { unfold p. apply Qmult_inv_r. change 0%Q with (inject_Z 0).
    rewrite inject_Z_injective. destruct l; [congruence | simpl; lia]. }
  assert (Hpos : (0 < p)%Q) by now rewrite Hp.
  assert (Hnum : 0 < Qnum p).
  { unfold Qlt in Hpos. change (Qnum 0) with 0 in Hpos.
    change (QDen 0) with 1 in Hpos. lia. }
  unfold DecisionTree.np_log2, Qis_zero, Qis_neg.
  destruct (Z.eqb_spec (Qnum p) 0); [lia|].
  destruct (Z.ltb_spec (Qnum p) 0); [lia|].
  eexists. split; [reflexivity|].
  rewrite (Hlog p Hp). ring.
Qed.

End TrainingRows.

Lemma log2_dyadic_one (q : Q) : (q == 1)%Q -> (log2_dyadic q == 0)%Q.
Proof.
  unfold Qeq, log2_dyadic. simpl. intros Hq.
  replace (Qnum q) with (Zpos (Qden q)) by lia.
  now rewrite Z.sub_diag.
Qed.


Lemma entropy_single_class_witness :
  exists e, @DecisionTree._entropy lcg_numpy (IntArray [3; 3; 3]) = Fl e /\ (e == 0)%Q.
Proof.
  apply (@entropy_single_class lcg_numpy [3; 3; 3] 3).
  - exact log2_dyadic_one.
  - discriminate.
  - intros z Hz. simpl in Hz. intuition congruence.
Defined.

(** ** Regression: squared errors and leaf means *)





Section Regression.
Context `{Numpy}.




End Regression.


